(** * ALPHA chat relay: request sanitizer, provider error classifier and
      follow-up suggestion extractor

    A shallow embedding of the decision logic of
    - [backend/src/server.js]: [sanitizeMessages], [clampNumber],
      [buildClientErrorFromOpenRouter] and the request composition of the
      [POST /api/chat] handler;
    - the client's [extractFollowUpSuggestions].

    JavaScript strings are sequences of UTF-16 code units, modelled as
    [list Z]; JavaScript numbers are IEEE 754 doubles, modelled by the
    Standard Library's [spec_float] and its comparison [SFcompare]. *)

From Stdlib Require Import ZArith List Bool Lia Ascii.
From Stdlib Require String.
Import String.StringSyntax.
Delimit Scope string_scope with string.
From Stdlib Require Import Floats.SpecFloat.
Import ListNotations.

Open Scope Z_scope.

(** ** JavaScript strings *)

Module JSString.

Definition jsstring := list Z.

(** Code units of an ASCII literal. *)
Definition u (s : String.string) : jsstring :=
  map (fun a => Z.of_N (N_of_ascii a)) (String.list_ascii_of_string s).

Arguments u s%_string.

Definition LF : Z := 10.
Definition QUOTE : Z := 34.

(** ECMAScript WhiteSpace and LineTerminator code points: what
    [String.prototype.trim] strips and what the pattern [\s] accepts. *)
Definition isWhiteSpace (c : Z) : bool :=
  ((9 <=? c) && (c <=? 13)) || (c =? 32) || (c =? 160) || (c =? 5760)
  || ((8192 <=? c) && (c <=? 8202)) || (c =? 8232) || (c =? 8233)
  || (c =? 8239) || (c =? 8287) || (c =? 12288) || (c =? 65279).

(** LineTerminator code points: what the pattern [.] refuses. *)
Definition isLineTerminator (c : Z) : bool :=
  (c =? 10) || (c =? 13) || (c =? 8232) || (c =? 8233).

Definition isDot (c : Z) : bool := negb (isLineTerminator c).

(** The pattern [\d]. *)
Definition isDigit (c : Z) : bool := (48 <=? c) && (c <=? 57).

Fixpoint trimStart (s : jsstring) : jsstring :=
  match s with
  | c :: s' => if isWhiteSpace c then trimStart s' else s
  | [] => []
  end.

Definition trimEnd (s : jsstring) : jsstring := rev (trimStart (rev s)).

(** [String.prototype.trim] *)
Definition trim (s : jsstring) : jsstring := trimEnd (trimStart s).

Fixpoint eqb (s t : jsstring) : bool :=
  match s, t with
  | [], [] => true
  | c :: s', d :: t' => (c =? d) && eqb s' t'
  | _, _ => false
  end.

(** [s.startsWith(prefix)] *)
Fixpoint startsWith (prefix s : jsstring) : bool :=
  match prefix, s with
  | [], _ => true
  | c :: p', d :: s' => (c =? d) && startsWith p' s'
  | _ :: _, [] => false
  end.

(** [s.split('\n')]: always at least one piece. *)
Fixpoint splitLines (s : jsstring) : list jsstring :=
  match s with
  | [] => [[]]
  | c :: s' =>
      if c =? LF then [] :: splitLines s'
      else match splitLines s' with
           | l :: ls => (c :: l) :: ls
           | [] => [[c]]
           end
  end.

(** [s.slice(0, n)] for [0 <= n]. *)
Definition slice0 (n : nat) (s : jsstring) : jsstring := firstn n s.

(** Lowercasing of the ASCII range, code unit by code unit.  On strings of
    ASCII code units [String.prototype.toLowerCase] is this function. *)
Definition asciiLowerUnit (c : Z) : Z :=
  if (65 <=? c) && (c <=? 90) then c + 32 else c.

Definition asciiToLowerCase (s : jsstring) : jsstring := map asciiLowerUnit s.

Definition isAscii (s : jsstring) : Prop :=
  forallb (fun c => (0 <=? c) && (c <? 128)) s = true.

(** *** Backtracking combinators for the two list patterns

    [greedyStar p k acc s] runs the sub-pattern [p*] on [s] the way a
    backtracking matcher does: it takes as many code units as satisfy [p],
    appends them to [acc], and hands what was consumed and what is left to
    the continuation [k]; when [k] fails it gives one code unit back and
    tries again. *)

Section Backtracking.
Context {A : Type}.

Fixpoint greedyStar (p : Z -> bool) (k : jsstring -> jsstring -> option A)
         (acc s : jsstring) : option A :=
  match s with
  | c :: s' =>
      if p c then
        match greedyStar p k (acc ++ [c]) s' with
        | Some r => Some r
        | None => k acc s
        end
      else k acc s
  | [] => k acc []
  end.

(** [p+] *)
Definition greedyPlus (p : Z -> bool) (k : jsstring -> jsstring -> option A)
           (s : jsstring) : option A :=
  match s with
  | c :: s' => if p c then greedyStar p k [c] s' else None
  | [] => None
  end.

End Backtracking.

(** The tail of both patterns, a group of any code units but line
    terminators followed by the end-of-input anchor (the patterns carry no
    flag): group 1 is what the group consumed, and the anchor only succeeds
    when nothing is left. *)
Definition captureToEnd (s : jsstring) : option jsstring :=
  greedyStar isDot
    (fun captured rest => match rest with [] => Some captured | _ => None end)
    [] s.

(** One or more white-space code units, then the captured tail. *)
Definition spacesThenCapture (s : jsstring) : option jsstring :=
  greedyPlus isWhiteSpace (fun _ rest => captureToEnd rest) s.

End JSString.

Import JSString.

(** ** JavaScript values

    The values the relay handles come out of [JSON.parse] (the request
    body, the provider's error body) or are absent ([undefined]).  Objects
    are plain objects: own data properties only, over [Object.prototype]
    and [Array.prototype] as the engine defines them. *)

Module JSValue.

#[local] Unset Elimination Schemes.

Inductive value :=
| VUndefined
| VNull
| VBool (b : bool)
| VNumber (x : spec_float)
| VString (s : jsstring)
| VArray (items : list value)
| VObject (fields : list (jsstring * value)).

#[local] Set Elimination Schemes.

Definition isNaN (x : spec_float) : bool :=
  match x with S754_nan => true | _ => false end.

Definition isZero (x : spec_float) : bool :=
  match x with S754_zero _ => true | _ => false end.

(** ToBoolean *)
Definition truthy (v : value) : bool :=
  match v with
  | VUndefined | VNull => false
  | VBool b => b
  | VNumber x => negb (isNaN x || isZero x)
  | VString s => match s with [] => false | _ :: _ => true end
  | VArray _ | VObject _ => true
  end.

Fixpoint lookup (key : jsstring) (fields : list (jsstring * value)) : option value :=
  match fields with
  | [] => None
  | (k, v) :: rest => if eqb k key then Some v else lookup key rest
  end.

(** [v.key] (or [v?.key]) for a key that no prototype and no array or
    primitive wrapper defines: the own property of an object, [undefined]
    everywhere else. *)
Definition get (v : value) (key : jsstring) : value :=
  match v with
  | VObject fields =>
      match lookup key fields with Some x => x | None => VUndefined end
  | _ => VUndefined
  end.

Definition isArray (v : value) : bool :=
  match v with VArray _ => true | _ => false end.

(** [v && typeof v === 'object'] *)
Definition isObjectLike (v : value) : bool :=
  match v with VArray _ | VObject _ => true | _ => false end.

Section WithNumberToString.

(** [Number::toString] (the shortest decimal that reads back as the
    double) is left abstract. *)
Variable numberToString : spec_float -> jsstring.

(** [String(v)]; [None] when the conversion throws a [TypeError].  A plain
    object converts through [Object.prototype.toString] unless an own
    [toString] property shadows it: that property came out of JSON, is not
    callable, and [valueOf] gives no primitive, so the conversion throws.
    An array converts through [Array.prototype.join]. *)
Fixpoint ToString (v : value) : option jsstring :=
  match v with
  | VUndefined => Some (u "undefined")
  | VNull => Some (u "null")
  | VBool true => Some (u "true")
  | VBool false => Some (u "false")
  | VNumber x => Some (numberToString x)
  | VString s => Some s
  | VArray items =>
      let element (x : value) : option jsstring :=
        match x with
        | VUndefined | VNull => Some []
        | _ => ToString x
        end in
      (fix join (l : list value) : option jsstring :=
         match l with
         | [] => Some []
         | [x] => element x
         | x :: rest =>
             match element x, join rest with
             | Some e, Some r => Some (e ++ u "," ++ r)
             | _, _ => None
             end
         end) items
  | VObject fields =>
      match lookup (u "toString") fields with
      | Some _ => None
      | None => Some (u "[object Object]")
      end
  end.

End WithNumberToString.

End JSValue.

Import JSValue.

(** ** The client: [extractFollowUpSuggestions] *)

Module Extractor.

Definition HEADER_COLON : jsstring := u "follow-up suggestions:".
Definition HEADER_PLAIN : jsstring := u "follow-up suggestions".
Definition HEADER_MD : jsstring := u "### follow-up suggestions".

(** The class of a dash and a star. *)
Definition isBulletMarker (c : Z) : bool := (c =? 45) || (c =? 42).

(** [bulletMatch]: the line matched against "a dash or a star, white
    space, then the captured tail"; the result is group 1 of the match. *)
Definition bulletMatch (line : jsstring) : option jsstring :=
  match line with
  | c :: s => if isBulletMarker c then spacesThenCapture s else None
  | [] => None
  end.

(** [numberedMatch]: the line matched against "digits, a full stop, white
    space, then the captured tail"; the result is group 1 of the match. *)
Definition numberedMatch (line : jsstring) : option jsstring :=
  greedyPlus isDigit
    (fun _ rest =>
       match rest with
       | c :: s => if c =? 46 then spacesThenCapture s else None
       | [] => None
       end)
    line.

(** [(m && m[1])]: a match with an empty group is falsy. *)
Definition truthyGroup (m : option jsstring) : option jsstring :=
  match m with
  | Some (c :: t) => Some (c :: t)
  | _ => None
  end.

(** [(bulletMatch && bulletMatch[1]) || (numberedMatch && numberedMatch[1]) || null] *)
Definition itemText (line : jsstring) : option jsstring :=
  match truthyGroup (bulletMatch line) with
  | Some t => Some t
  | None => truthyGroup (numberedMatch line)
  end.

(** What one iteration of the [for] loop does with the suggestions so far. *)
Inductive LoopStep :=
| Continue (suggestions : list jsstring)
| Break (suggestions : list jsstring).

Section WithCaseMapping.

(** [String.prototype.toLowerCase]: the Unicode case mapping is left
    abstract; only its value on ASCII strings is ever assumed, and only
    where a statement says so. *)
Variable toLowerCase : jsstring -> jsstring.

Definition isHeader (line : jsstring) : bool :=
  let t := toLowerCase (trim line) in
  eqb t HEADER_COLON || eqb t HEADER_PLAIN || startsWith HEADER_MD t.

(** [lines.findIndex(isHeader)], as the lines after the first header. *)
Fixpoint afterHeader (lines : list jsstring) : option (list jsstring) :=
  match lines with
  | [] => None
  | l :: rest => if isHeader l then Some rest else afterHeader rest
  end.

(** A markdown heading other than the suggestions heading. *)
Definition isOtherHeading (line : jsstring) : bool :=
  startsWith [35] line && negb (startsWith HEADER_MD (toLowerCase line)).

(** The body of the loop at [lines[i]]. *)
Definition loopBody (raw : jsstring) (suggestions : list jsstring) : LoopStep :=
  let line := trim raw in
  match line with
  | [] => Continue suggestions
  | _ :: _ =>
      if isOtherHeading line then
        if (0 <? length suggestions)%nat then Break suggestions
        else Continue suggestions
      else
        match itemText line with
        | Some text =>
            let suggestions' := suggestions ++ [trim text] in
            if (5 <=? length suggestions')%nat then Break suggestions'
            else Continue suggestions'
        | None =>
            if (0 <? length suggestions)%nat then Break suggestions
            else Continue suggestions
        end
  end.

(** The loop over the lines after the header. *)
Fixpoint scan (lines : list jsstring) (suggestions : list jsstring)
  : list jsstring :=
  match lines with
  | [] => suggestions
  | raw :: rest =>
      match loopBody raw suggestions with
      | Continue suggestions' => scan rest suggestions'
      | Break suggestions' => suggestions'
      end
  end.

(** [extractFollowUpSuggestions] past its guard, on a string; the empty
    string is falsy and returns at the guard. *)
Definition extractFromText (content : jsstring) : list jsstring :=
  match content with
  | [] => []
  | _ :: _ =>
      match afterHeader (splitLines content) with
      | None => []
      | Some rest => scan rest []
      end
  end.

(** [extractFollowUpSuggestions]: anything but a string returns at the
    guard. *)
Definition extractFollowUpSuggestions (content : value) : list jsstring :=
  match content with
  | VString text => extractFromText text
  | _ => []
  end.

End WithCaseMapping.

End Extractor.

(** ** The relay: [backend/src/server.js] *)

Module Server.

Record ChatTurn := { role : jsstring; content : jsstring }.

Definition MAX_MESSAGES : nat := 50.
Definition MAX_CHARS : nat := 4000.

(** [allowedRoles.has(r)] *)
Definition allowedRoles (r : value) : bool :=
  match r with
  | VString s => eqb s (u "user") || eqb s (u "assistant") || eqb s (u "system")
  | _ => false
  end.

(** [rawMessages.slice(-n)] *)
Definition sliceLast {A : Type} (n : nat) (l : list A) : list A :=
  skipn (length l - n) l.

(** The doubles 0, 1 and 4096. *)
Definition num0 : spec_float := S754_zero false.
Definition num1 : spec_float := S754_finite false 4503599627370496 (-52).
Definition num4096 : spec_float := S754_finite false 4503599627370496 (-40).

(** [clampNumber]; [None] is [undefined]. *)
Definition clampNumber (v : value) (min max : spec_float) : option spec_float :=
  match v with
  | VNumber x =>
      if isNaN x then None
      else if SFltb x min then Some min
      else if SFltb max x then Some max
      else Some x
  | _ => None
  end.

Record Payload := {
  model : jsstring;
  messages : list ChatTurn;
  temperature : option spec_float;
  top_p : option spec_float;
  max_tokens : option spec_float
}.

(** What the handler does with a request before it calls the provider. *)
Inductive Outcome :=
| Reject (statusCode : Z) (error : jsstring)
| Forward (payload : Payload).

(** [process.env] *)
Record Env := {
  OPENROUTER_API_KEY : option jsstring;
  SYSTEM_PROMPT : option jsstring
}.

Definition DEFAULT_BASE_PROMPT : jsstring :=
  u "You are Alpha. If asked who created you or who built you, answer exactly: "
  ++ [QUOTE] ++ u "Sarthak created me." ++ [QUOTE]
  ++ u " Always refer to yourself as Alpha.".

Definition suggestionInstructions : jsstring :=
  u "When you answer, always: 1) Provide the best possible answer in a clear, concise and well-organized way, using headings, bullet points and step-by-step lists when helpful. 2) Keep explanations focused and avoid unnecessary repetition. 3) After the main answer, add a short section titled "
  ++ [QUOTE] ++ u "Follow-up suggestions" ++ [QUOTE]
  ++ u " with 3-5 short example questions the user could ask next that are directly related to their original question.".

(** [env.X || fallback] for an environment variable. *)
Definition envOr (x : option jsstring) (fallback : jsstring) : jsstring :=
  match x with
  | Some (c :: s) => c :: s
  | _ => fallback
  end.

Definition baseSystemPrompt (env : Env) : jsstring :=
  envOr (SYSTEM_PROMPT env) DEFAULT_BASE_PROMPT.

Definition defaultSystemPrompt (env : Env) : jsstring :=
  baseSystemPrompt env ++ [LF; LF] ++ suggestionInstructions.

(** [safeMessages.some(m => m?.role === 'system')] *)
Definition hasSystem (safeMessages : list ChatTurn) : bool :=
  existsb (fun m => eqb (role m) (u "system")) safeMessages.

Definition finalMessages (env : Env) (safeMessages : list ChatTurn)
  : list ChatTurn :=
  if hasSystem safeMessages then safeMessages
  else {| role := u "system"; content := defaultSystemPrompt env |}
       :: safeMessages.


Definition selectedModel (model : value) : jsstring :=
  match model with
  | VString s =>
      match trim s with
      | [] => u "openai/gpt-4o-mini"
      | c :: t => c :: t
      end
  | _ => u "openai/gpt-4o-mini"
  end.

(** [req.body || {}] *)
Definition bodyOrEmpty (reqBody : value) : value :=
  if truthy reqBody then reqBody else VObject [].

(** The synthesized system turn. *)
Definition systemTurn (env : Env) : ChatTurn :=
  {| role := u "system"; content := defaultSystemPrompt env |}.

(** The messages of a forwarded request; none when it is rejected. *)
Definition requestMessages (o : Outcome) : list ChatTurn :=
  match o with
  | Forward p => messages p
  | Reject _ _ => []
  end.

Definition MSG_INVALID : jsstring :=
  u "Invalid request: at least one non-empty user message is required".

Section WithNumberToString.

Variable numberToString : spec_float -> jsstring.

(** The body of the loop of [sanitizeMessages]: the turn pushed for [m],
    or [None] where the loop [continue]s. *)
Definition sanitizeEntry (m : value) : option ChatTurn :=
  if negb (isObjectLike m) then None
  else
    let role := if allowedRoles (get m (u "role"))
                then match get m (u "role") with VString s => s | _ => u "user" end
                else u "user" in
    let content := get m (u "content") in
    let text :=
      match content with
      | VString s => Some s
      | VUndefined | VNull => None
      | _ => ToString numberToString content
      end in
    match text with
    | None => None
    | Some content =>
        let normalized := trim content in
        match normalized with
        | [] => None
        | _ :: _ =>
            let limited :=
              if (MAX_CHARS <? length normalized)%nat
              then slice0 MAX_CHARS normalized
              else normalized in
            Some {| role := role; content := limited |}
        end
    end.

(** The [for] loop, pushing onto [safe]. *)
Fixpoint sanitizeLoop (trimmed : list value) (safe : list ChatTurn)
  : list ChatTurn :=
  match trimmed with
  | [] => safe
  | m :: rest =>
      match sanitizeEntry m with
      | None => sanitizeLoop rest safe
      | Some turn => sanitizeLoop rest (safe ++ [turn])
      end
  end.

Definition sanitizeMessages (rawMessages : value) : list ChatTurn :=
  match rawMessages with
  | VArray items => sanitizeLoop (sliceLast MAX_MESSAGES items) []
  | _ => []
  end.

(** The handler from the destructuring of the body to the payload. *)
Definition sanitizeRequest (env : Env) (reqBody : value) : Outcome :=
  let body := bodyOrEmpty reqBody in
  let safeMessages := sanitizeMessages (get body (u "messages")) in
  match safeMessages with
  | [] =>
      Reject 400 MSG_INVALID
  | _ :: _ =>
      Forward {|
        model := selectedModel (get body (u "model"));
        messages := finalMessages env safeMessages;
        temperature := clampNumber (get body (u "temperature")) num0 num1;
        top_p := clampNumber (get body (u "top_p")) num0 num1;
        max_tokens := clampNumber (get body (u "max_tokens")) num1 num4096
      |}
  end.

(** The handler up to the provider call, with the check of the key. *)
Definition chatRequest (env : Env) (reqBody : value) : Outcome :=
  match OPENROUTER_API_KEY env with
  | Some (_ :: _) => sanitizeRequest env reqBody
  | _ => Reject 500 (u "Server not configured: missing OPENROUTER_API_KEY")
  end.

End WithNumberToString.

(** *** [buildClientErrorFromOpenRouter] *)

(** The failure caught by the handler: an axios error carries the
    provider's [response] when one arrived, with the integer HTTP status
    and the parsed body; [code] and [message] are [undefined] when the
    thrown value has none. *)
Record Response := { status : Z; data : value }.

Record Failure := {
  response : option Response;
  code : value;
  message : value
}.

Record ClientError := { statusCode : Z; errorMessage : jsstring }.

(** [a || b] *)
Definition orElse (a b : value) : value := if truthy a then a else b.

(** [err?.response?.data?.error || err?.message || 'Unknown error'] *)
Definition rawMessage (err : Failure) : value :=
  let providerError :=
    match response err with
    | Some r => get (data r) (u "error")
    | None => VUndefined
    end in
  orElse (orElse providerError (message err)) (VString (u "Unknown error")).

(** [typeof rawMessage === 'string' ? rawMessage : 'Request failed'] *)
Definition safeMessage (raw : value) : jsstring :=
  match raw with
  | VString s => s
  | _ => u "Request failed"
  end.

Definition isTimeout (err : Failure) : bool :=
  match code err with
  | VString s => eqb s (u "ECONNABORTED")
  | _ => false
  end.

Definition MSG_TIMEOUT : jsstring :=
  u "The AI took too long to respond. Please try again.".
Definition MSG_UNREACHABLE : jsstring :=
  u "Unable to reach the AI service. Please try again in a moment.".
Definition MSG_UNAUTHORIZED : jsstring :=
  u "The AI backend is not authorized. Please contact the administrator.".
Definition MSG_RATE_LIMITED : jsstring :=
  u "The AI is receiving too many requests. Please slow down and try again shortly.".
Definition MSG_PROVIDER_ISSUE : jsstring :=
  u "The AI provider is having an issue. Please try again later.".

(** [!status] for [status = err?.response?.status]: no response, or the
    falsy status 0. *)
Definition noStatus (err : Failure) : bool :=
  match response err with
  | None => true
  | Some r => status r =? 0
  end.

Definition buildClientErrorFromOpenRouter (err : Failure) : ClientError :=
  match response err with
  | Some r =>
      let status := status r in
      if status =? 0 then
        if isTimeout err then {| statusCode := 504; errorMessage := MSG_TIMEOUT |}
        else {| statusCode := 502; errorMessage := MSG_UNREACHABLE |}
      else if (status =? 401) || (status =? 403) then
        {| statusCode := 500; errorMessage := MSG_UNAUTHORIZED |}
      else if status =? 429 then
        {| statusCode := 429; errorMessage := MSG_RATE_LIMITED |}
      else if 500 <=? status then
        {| statusCode := 502; errorMessage := MSG_PROVIDER_ISSUE |}
      else
        {| statusCode := status; errorMessage := safeMessage (rawMessage err) |}
  | None =>
      if isTimeout err then {| statusCode := 504; errorMessage := MSG_TIMEOUT |}
      else {| statusCode := 502; errorMessage := MSG_UNREACHABLE |}
  end.

End Server.

(** ** The relay, continued: the handler around the provider call *)

Module Handler.

Import Server.

(** [a ?? b] *)
Definition nullish (v : value) : bool :=
  match v with VUndefined | VNull => true | _ => false end.

Definition orDefault (a b : value) : value := if nullish a then b else a.

(** [v?.[0]]: the first element of an array, the first code unit of a
    string, the own property [0] of an object, [undefined] elsewhere. *)
Definition first (v : value) : value :=
  match v with
  | VArray (x :: _) => x
  | VString (c :: _) => VString [c]
  | VObject fields =>
      match lookup (u "0") fields with Some x => x | None => VUndefined end
  | _ => VUndefined
  end.



(** [data?.choices?.[0]?.message] *)
Definition firstMessage (data : value) : value :=
  get (first (get data (u "choices"))) (u "message").

(** The body of the success response. *)
Definition successBody (data : value) : value :=
  VObject [ (u "content",
             orDefault (get (firstMessage data) (u "content")) (VString []));
            (u "role",
             orDefault (get (firstMessage data) (u "role"))
                       (VString (u "assistant")));
            (u "raw",
             VObject [ (u "id", get data (u "id"));
                       (u "model", get data (u "model"));
                       (u "usage", get data (u "usage")) ]) ].



Section WithNumberToString.

Variable numberToString : spec_float -> jsstring.


End WithNumberToString.

End Handler.

(** ** The relay, continued: the CORS origin check *)

Module Cors.

Import Server.

(** [process.env] as the origin list reads it. *)
Record OriginEnv := { ORIGIN : option jsstring; VERCEL_URL : option jsstring }.

Definition LOCAL_DEV : jsstring := u "http://localhost:5173".

(** [s.endsWith(suffix)] *)
Definition endsWith (suffix s : jsstring) : bool :=
  startsWith (rev suffix) (rev s).

(** [allowedOrigins.includes(x)] *)
Definition includes (x : jsstring) (l : list jsstring) : bool :=
  existsb (eqb x) l.

Definition nonEmpty (s : jsstring) : bool :=
  match s with [] => false | _ :: _ => true end.

Definition origin (env : OriginEnv) : jsstring :=
  envOr (ORIGIN env)
        (match VERCEL_URL env with
         | Some (c :: s) => u "https://" ++ c :: s
         | _ => LOCAL_DEV
         end).

Definition allowedOrigins (env : OriginEnv) : list jsstring :=
  filter nonEmpty
         [ LOCAL_DEV;
           u "http://localhost:3000";
           u "https://alpha-tawny-two.vercel.app";
           u "https://alpha-pink-seven.vercel.app";
           origin env ].

Section WithUrlParser.

(** [new URL(x).hostname]; [None] when the constructor throws.  The URL
    parser is left abstract. *)
Variable hostname : jsstring -> option jsstring.

(** [corsOptions.origin]: [true] for [callback(null, true)], [false] for
    the [Not allowed by CORS] error.  [None] is a request without the
    header. *)
Definition originAllowed (env : OriginEnv) (requestOrigin : option jsstring)
  : bool :=
  match requestOrigin with
  | None | Some [] => true
  | Some o =>
      if includes o (allowedOrigins env) then true
      else match hostname o with
           | Some h => nonEmpty h && endsWith (u ".vercel.app") h
           | None => false
           end
  end.

End WithUrlParser.

End Cors.

(** ** The client, continued: what the component computes *)

Module Client.

Import Server Extractor.

(** [m?.role === 'assistant' && typeof m.content === 'string'] *)
Definition isAssistantText (m : value) : bool :=
  match get m (u "role"), get m (u "content") with
  | VString r, VString _ => eqb r (u "assistant")
  | _, _ => false
  end.

(** The loop of [lastAssistantMessage], from the last message down. *)
Fixpoint findFromEnd (p : value -> bool) (reversed : list value)
  : option value :=
  match reversed with
  | [] => None
  | m :: rest => if p m then Some m else findFromEnd p rest
  end.

Definition lastAssistantMessage (messages : list value) : option value :=
  findFromEnd isAssistantText (rev messages).

(** [followUpSuggestions] *)
Definition followUpSuggestions (toLowerCase : jsstring -> jsstring)
           (messages : list value) : list jsstring :=
  match lastAssistantMessage messages with
  | Some m => extractFollowUpSuggestions toLowerCase (get m (u "content"))
  | None => []
  end.

(** [canSend] *)
Definition canSend (input : jsstring) (loading : bool) : bool :=
  (0 <? length (trim input))%nat && negb loading.

(** [userMsg] of [sendMessage]; [now] is [Date.now()]. *)
Definition userMsg (input : jsstring) (now : spec_float) : value :=
  VObject [ (u "role", VString (u "user"));
            (u "content", VString (trim input));
            (u "time", VNumber now) ].

(** The body [sendMessage] posts, or [None] when it returns at its guard. *)
Definition sendMessage (messages : list value) (input : jsstring)
           (loading : bool) (temperature : value) (now : spec_float)
  : option value :=
  if canSend input loading then
    Some (VObject [ (u "messages", VArray (messages ++ [userMsg input now]));
                    (u "temperature", temperature) ])
  else None.

(** The content of [aiMsg]: [res.data?.content || 'No response']. *)
Definition aiContent (resData : value) : value :=
  orElse (get resData (u "content")) (VString (u "No response")).


(** [handleSuggestionClick]: the input after the click. *)
Definition handleSuggestionClick (text input : jsstring) : jsstring :=
  match text with
  | [] => input
  | _ :: _ => text
  end.

(** [roles.lastIndexOf(x)] for a test [p] of strict equality with [x]. *)
Fixpoint lastIndexOf (p : value -> bool) (l : list value) : option nat :=
  match l with
  | [] => None
  | x :: rest =>
      match lastIndexOf p rest with
      | Some i => Some (S i)
      | None => if p x then Some 0%nat else None
      end
  end.

Definition isUser (r : value) : bool :=
  match r with VString s => eqb s (u "user") | _ => false end.

(** What [regenerateLast] does: it throws when reading [m.role] of a
    [null] or [undefined] message, returns at its guard, or sets the
    messages to [base] and the input to the content of the last user
    message. *)
Inductive Regenerated :=
| Throws
| Unchanged
| Restored (base : list value) (input : value).

Definition regenerateLast (messages : list value) : Regenerated :=
  if existsb Handler.nullish messages then Throws
  else
    match lastIndexOf isUser (map (fun m => get m (u "role")) messages) with
    | None => Unchanged
    | Some lastUserIndex =>
        Restored (firstn lastUserIndex messages)
                 (get (nth lastUserIndex messages VUndefined) (u "content"))
    end.

End Client.

(** * Vocabulary of the statements *)

Import Extractor Server.

(** No white space at the front, respectively at the back. *)
Definition noLeadingWS (s : jsstring) : Prop :=
  match s with
  | c :: _ => isWhiteSpace c = false
  | [] => True
  end.

Definition noTrailingWS (s : jsstring) : Prop := noLeadingWS (rev s).

(** Where a greedy run of [p] has to stop. *)
Definition stopsAt (p : Z -> bool) (s : jsstring) : Prop :=
  match s with
  | c :: _ => p c = false
  | [] => True
  end.

(** The sample reply of the specification. *)
Definition sampleReply : jsstring :=
  u "### Follow-up suggestions" ++ [LF] ++ u "- What is X?" ++ [LF]
  ++ u "- How does Y work?" ++ [LF] ++ [LF] ++ u "More text".

(** A header line, trimmed and lowercased. *)
Definition headerText (t : jsstring) : Prop :=
  t = HEADER_COLON \/ t = HEADER_PLAIN \/ startsWith HEADER_MD t = true.

(** What every returned suggestion looks like. *)
Definition Clean (s : jsstring) : Prop :=
  s <> [] /\ noLeadingWS s /\ noTrailingWS s.

(** A case mapping that lowercases ASCII strings the ASCII way, as
    [String.prototype.toLowerCase] does. *)
Definition AsciiFaithful (toLowerCase : jsstring -> jsstring) : Prop :=
  forall s, isAscii s -> toLowerCase s = asciiToLowerCase s.

(** The lists of one loop step. *)
Definition stepResult (step : LoopStep) : list jsstring :=
  match step with Continue s | Break s => s end.

(** A list marker with nothing after it: a dash, a star, or digits and a
    full stop. *)
Definition bareMarker (m : jsstring) : Prop :=
  m = [45] \/ m = [42] \/
  exists ds, ds <> [] /\ forallb isDigit ds = true /\ m = ds ++ [46].

(** The reading of C9 under which a heading line ends the loop whether or
    not a suggestion has been collected. *)
Definition HeadingAlwaysStops (toLowerCase : jsstring -> jsstring) : Prop :=
  forall (raw : jsstring) (suggestions : list jsstring),
    isOtherHeading toLowerCase (trim raw) = true ->
    exists s, loopBody toLowerCase raw suggestions = Break s.

(** A reply whose suggestions heading is followed by another heading and
    then by a bullet. *)
Definition headingThenBullet : jsstring :=
  u "### Follow-up suggestions" ++ [LF] ++ u "# Another heading" ++ [LF]
  ++ u "- Still collected?".

(** The turn of an entry as a list: the entry's contribution to [safe]. *)
Definition survivors (sanitize : value -> option ChatTurn) (m : value)
  : list ChatTurn :=
  match sanitize m with
  | Some turn => [turn]
  | None => []
  end.

(** The role the sanitizer gives a turn. *)
Definition coercedRole (r : value) : jsstring :=
  match r with
  | VString s =>
      if eqb s (u "user") || eqb s (u "assistant") || eqb s (u "system")
      then s else u "user"
  | _ => u "user"
  end.

(** [Coerced toString c text]: the content [c] is kept, as the text
    [text]: a string as it is, any other value but [null] and [undefined]
    through [String], when that does not throw. *)
Definition Coerced (toString : value -> option jsstring) (c : value)
           (text : jsstring) : Prop :=
  match c with
  | VString s => text = s
  | VUndefined | VNull => False
  | _ => toString c = Some text
  end.

(** An entry [{role, content}] of a request. *)
Definition entry (r c : value) : value :=
  VObject [(u "role", r); (u "content", c)].

Definition userEntry (text : jsstring) : value :=
  entry (VString (u "user")) (VString text).

(** A request body with only [messages]. *)
Definition bodyWith (rawMessages : value) : value :=
  VObject [(u "messages", rawMessages)].

Definition fiftyUserTurns : value := VArray (repeat (userEntry (u "hi")) 50).

Definition plainEnv : Env :=
  {| OPENROUTER_API_KEY := Some (u "key"); SYSTEM_PROMPT := None |}.

Definition longPromptEnv : Env :=
  {| OPENROUTER_API_KEY := Some (u "key");
     SYSTEM_PROMPT := Some (repeat 120 4001) |}.

(** C1 as stated: whatever the request, the composed messages are at most
    50 turns of at most 4000 code units each. *)
Definition ComposedWithinBounds (numberToString : spec_float -> jsstring)
  : Prop :=
  forall (env : Env) (reqBody : value),
    let msgs := requestMessages (sanitizeRequest numberToString env reqBody) in
    (length msgs <= 50)%nat /\
    Forall (fun t => (length (content t) <= 4000)%nat) msgs.

(** A request with one usable entry and every other field malformed. *)
Definition lenientBody : value :=
  VObject [ (u "messages",
             VArray [VNull; VNumber S754_nan;
                     entry (VNumber S754_nan) (VBool true)]);
            (u "model", VNumber S754_nan);
            (u "temperature", VString (u "hot"));
            (u "top_p", VNull);
            (u "max_tokens", VNumber S754_nan) ].

(** An entry whose content has an own [toString]: [String] throws on it. *)
Definition shadowedContent : value :=
  entry (VString (u "user")) (VObject [(u "toString", VNumber S754_nan)]).

(** [lo <= r <= hi] on doubles. *)
Definition InRange (lo hi r : spec_float) : Prop :=
  SFleb lo r = true /\ SFleb r hi = true.

(** What clamping [v] into [lo, hi] has to give. *)
Definition Clamped (lo hi : spec_float) (v : value) (out : option spec_float)
  : Prop :=
  match v with
  | VNumber x =>
      if isNaN x then out = None
      else exists r,
          out = Some r /\ InRange lo hi r /\
          (SFltb x lo = true -> r = lo) /\
          (SFltb hi x = true -> r = hi) /\
          (InRange lo hi x -> r = x)
  | _ => out = None
  end.

(** The doubles 2 and -1. *)
Definition num2 : spec_float := S754_finite false 4503599627370496 (-51).
Definition numMinus1 : spec_float := S754_finite true 4503599627370496 (-52).

Definition optionsBody : value :=
  VObject [ (u "messages", VArray [userEntry (u "hi")]);
            (u "temperature", VNumber num2);
            (u "top_p", VNumber numMinus1);
            (u "max_tokens", VString (u "many")) ].

(** A request that timed out, a 404 with a provider message, and a 418
    whose provider error is an object. *)
Definition timedOut : Failure :=
  {| response := None;
     code := VString (u "ECONNABORTED");
     message := VString (u "timeout of 60000ms exceeded") |}.

Definition notFound : Failure :=
  {| response :=
       Some {| status := 404;
               data := VObject [(u "error", VString (u "No such model"))] |};
     code := VString (u "ERR_BAD_REQUEST");
     message := VString (u "Request failed with status code 404") |}.

Definition teapot : Failure :=
  {| response :=
       Some {| status := 418;
               data := VObject [(u "error",
                                 VObject [(u "message", VString (u "tea"))])] |};
     code := VString (u "ERR_BAD_REQUEST");
     message := VString (u "Request failed with status code 418") |}.

(** The suggestion a line contributes: its item text, trimmed. *)
Definition itemOf (line : jsstring) : list jsstring :=
  match itemText (trim line) with
  | Some text => [trim text]
  | None => []
  end.

(** [line] is a list line with the text [t]: a bullet or numbered marker,
    white space, and a text that is trimmed, non-empty and free of line
    terminators. *)
Definition ListLine (line t : jsstring) : Prop :=
  exists marker ws,
    bareMarker marker /\ ws <> [] /\ forallb isWhiteSpace ws = true /\
    Clean t /\ forallb isDot t = true /\ line = marker ++ ws ++ t.

(** [lines.join('\n')] *)
Fixpoint joinLines (lines : list jsstring) : jsstring :=
  match lines with
  | [] => []
  | [l] => l
  | l :: rest => l ++ LF :: joinLines rest
  end.

Definition noLF (line : jsstring) : Prop := ~ In LF line.

(** A sanitized turn as the entry a client would send back. *)
Definition turnValue (t : ChatTurn) : value :=
  entry (VString (role t)) (VString (content t)).

Definition AllowedRole (r : jsstring) : Prop :=
  r = u "user" \/ r = u "assistant" \/ r = u "system".

(** Where a list may end: at the end of the reply, or at a non-blank line
    that is no list item. *)
Definition ListEnds (tail : list jsstring) : Prop :=
  match tail with
  | [] => True
  | stop :: _ => trim stop <> [] /\ itemText (trim stop) = None
  end.

(** The API key is configured: set and not empty. *)
Definition hasKey (env : Env) : bool :=
  match OPENROUTER_API_KEY env with
  | Some (_ :: _) => true
  | _ => false
  end.

(** An option that is absent or within [lo, hi]. *)
Definition AbsentOrWithin (lo hi : spec_float) (o : option spec_float) : Prop :=
  match o with
  | None => True
  | Some r => InRange lo hi r
  end.

(** The five texts the classifier writes itself. *)
Definition FixedMessage (m : jsstring) : Prop :=
  m = MSG_TIMEOUT \/ m = MSG_UNREACHABLE \/ m = MSG_UNAUTHORIZED \/
  m = MSG_RATE_LIMITED \/ m = MSG_PROVIDER_ISSUE.

(** * Properties *)

(** ** Strings: trimming and prefixes *)

Module JSStringFacts.

(** Settles every comparison of the goal that linear arithmetic decides. *)
Ltac decide_comparisons :=
  repeat match goal with
  | |- context [?a =? ?b] =>
      first [ replace (a =? b) with false by (symmetry; apply Z.eqb_neq; lia)
            | replace (a =? b) with true by (symmetry; apply Z.eqb_eq; lia) ]
  | |- context [?a <=? ?b] =>
      first [ replace (a <=? b) with false by (symmetry; apply Z.leb_gt; lia)
            | replace (a <=? b) with true by (symmetry; apply Z.leb_le; lia) ]
  end.

Lemma eqb_eq (s t : jsstring) : eqb s t = true <-> s = t.
Proof.
  revert t; induction s as [|c s IH]; intros [|d t]; simpl;
    try (split; [discriminate | congruence]); try tauto.
  rewrite andb_true_iff, Z.eqb_eq, IH.
  split; [intros [-> ->]; reflexivity | intros [= -> ->]; auto].
Qed.

Lemma startsWith_app (p s : jsstring) :
  startsWith p s = true <-> exists t, s = p ++ t.
Proof.
  revert s; induction p as [|c p IH]; intros s; simpl.
  - split; [intros _; now exists s | reflexivity].
  - destruct s as [|d s].
    + split; [discriminate | intros [t [=]]].
    + rewrite andb_true_iff, Z.eqb_eq, IH.
      split.
      * intros [-> [t ->]]; now exists t.
      * intros [t [= -> ->]]; split; [reflexivity | now exists t].
Qed.

Lemma trimStart_noLeading (s : jsstring) : noLeadingWS (trimStart s).
Proof.
  induction s as [|c s IH]; simpl; [exact I|].
  destruct (isWhiteSpace c) eqn:E; [exact IH | exact E].
Qed.

Lemma trimStart_split (s : jsstring) :
  exists ws, s = ws ++ trimStart s /\ forallb isWhiteSpace ws = true.
Proof.
  induction s as [|c s [ws [IH1 IH2]]]; simpl.
  - now exists [].
  - destruct (isWhiteSpace c) eqn:E.
    + exists (c :: ws); simpl; rewrite E, IH2; split; [now f_equal | reflexivity].
    + now exists [].
Qed.

Lemma trimStart_fixed (s : jsstring) : noLeadingWS s -> trimStart s = s.
Proof. destruct s as [|c s]; simpl; [reflexivity | now intros ->]. Qed.

Lemma trimStart_skips (ws s : jsstring) :
  forallb isWhiteSpace ws = true -> trimStart (ws ++ s) = trimStart s.
Proof.
  induction ws as [|c ws IH]; simpl; [reflexivity|].
  rewrite andb_true_iff; intros [-> H]; auto.
Qed.

Lemma trimStart_keeps (c : Z) (s : jsstring) :
  In c s -> isWhiteSpace c = false -> In c (trimStart s).
Proof.
  induction s as [|d s IH]; simpl; [tauto|].
  intros [->|Hin] Hc.
  - rewrite Hc; now left.
  - destruct (isWhiteSpace d); [auto | now right].
Qed.

Lemma trimEnd_split (s : jsstring) :
  exists ws, s = trimEnd s ++ ws /\ forallb isWhiteSpace ws = true.
Proof.
  unfold trimEnd.
  destruct (trimStart_split (rev s)) as [ws [H1 H2]].
  exists (rev ws); split.
  - rewrite <- rev_app_distr, <- H1; symmetry; apply rev_involutive.
  - rewrite forallb_forall in *; intros x Hx; apply H2; now apply in_rev.
Qed.

Lemma trimEnd_noTrailing (s : jsstring) : noTrailingWS (trimEnd s).
Proof.
  unfold noTrailingWS, trimEnd; rewrite rev_involutive.
  apply trimStart_noLeading.
Qed.

Lemma trimEnd_noLeading (s : jsstring) : noLeadingWS s -> noLeadingWS (trimEnd s).
Proof.
  destruct (trimEnd_split s) as [ws [H _]].
  destruct (trimEnd s) as [|c t]; [intros _; exact I|].
  rewrite H; simpl; auto.
Qed.

Lemma trim_noLeading (s : jsstring) : noLeadingWS (trim s).
Proof. apply trimEnd_noLeading, trimStart_noLeading. Qed.

Lemma trim_noTrailing (s : jsstring) : noTrailingWS (trim s).
Proof. apply trimEnd_noTrailing. Qed.

Lemma trim_keeps (c : Z) (s : jsstring) :
  In c s -> isWhiteSpace c = false -> In c (trim s).
Proof.
  intros Hin Hc; unfold trim, trimEnd.
  apply in_rev; rewrite rev_involutive.
  apply trimStart_keeps; [|exact Hc].
  apply in_rev; rewrite rev_involutive.
  now apply trimStart_keeps.
Qed.

Lemma trim_fixed (s : jsstring) :
  noLeadingWS s -> noTrailingWS s -> trim s = s.
Proof.
  intros H1 H2; unfold trim, trimEnd.
  rewrite (trimStart_fixed s H1), (trimStart_fixed (rev s) H2).
  apply rev_involutive.
Qed.

(** Trimming a string that is white space after a trimmed core gives the
    core. *)
Lemma trim_core (core ws : jsstring) :
  core <> [] -> noLeadingWS core -> noTrailingWS core ->
  forallb isWhiteSpace ws = true -> trim (core ++ ws) = core.
Proof.
  intros Hne H1 H2 Hws; unfold trim, trimEnd.
  rewrite (trimStart_fixed (core ++ ws)).
  - rewrite rev_app_distr, trimStart_skips.
    + rewrite (trimStart_fixed _ H2); apply rev_involutive.
    + rewrite forallb_forall in *; intros x Hx; apply Hws; now apply in_rev.
  - destruct core; [congruence | exact H1].
Qed.

Lemma trim_blank (ws : jsstring) :
  forallb isWhiteSpace ws = true -> trim ws = [].
Proof.
  intros H; unfold trim.
  replace (trimStart ws) with (@nil Z); [reflexivity|].
  rewrite <- (app_nil_r ws), trimStart_skips; auto.
Qed.

Lemma trim_length (s : jsstring) : (length (trim s) <= length s)%nat.
Proof.
  unfold trim.
  destruct (trimStart_split s) as [a [Ha _]].
  destruct (trimEnd_split (trimStart s)) as [b [Hb _]].
  rewrite Ha at 2; rewrite Hb at 2; rewrite !length_app; lia.
Qed.

(** A non-empty tail of a string without trailing white space keeps a
    code unit through trimming. *)
Lemma trim_tail_nonempty (pre t : jsstring) :
  t <> [] -> noTrailingWS (pre ++ t) -> trim t <> [].
Proof.
  intros Hne H.
  unfold noTrailingWS in H; rewrite rev_app_distr in H.
  destruct (rev t) as [|c r] eqn:E.
  - apply (f_equal (@rev Z)) in E; rewrite rev_involutive in E; simpl in E.
    congruence.
  - simpl in H.
    assert (Hin : In c t) by (apply in_rev; rewrite E; now left).
    pose proof (trim_keeps c t Hin H) as Hk.
    intros He; rewrite He in Hk; exact Hk.
Qed.

End JSStringFacts.

Import JSStringFacts.

(** ** The backtracking combinators *)

Module PatternFacts.

(** A success of [greedyStar] is a success of its continuation after some
    run of [p]. *)
Lemma greedyStar_sound {A : Type} (p : Z -> bool)
      (k : jsstring -> jsstring -> option A) (s acc : jsstring) (r : A) :
  greedyStar p k acc s = Some r ->
  exists a b, s = a ++ b /\ forallb p a = true /\ k (acc ++ a) b = Some r.
Proof.
  revert acc; induction s as [|c s IH]; intros acc; simpl.
  - intros H; exists [], []; simpl; rewrite app_nil_r; auto.
  - destruct (p c) eqn:Hp.
    + destruct (greedyStar p k (acc ++ [c]) s) as [r0|] eqn:E.
      * intros [= ->].
        destruct (IH _ E) as [a [b [-> [Ha Hk]]]].
        exists (c :: a), b; simpl; rewrite Hp, Ha.
        rewrite <- app_assoc in Hk; auto.
      * intros H; exists [], (c :: s); simpl; rewrite app_nil_r; auto.
    + intros H; exists [], (c :: s); simpl; rewrite app_nil_r; auto.
Qed.

(** The longest run is tried first. *)
Lemma greedyStar_first {A : Type} (p : Z -> bool)
      (k : jsstring -> jsstring -> option A) (a b acc : jsstring) (r : A) :
  forallb p a = true -> stopsAt p b -> k (acc ++ a) b = Some r ->
  greedyStar p k acc (a ++ b) = Some r.
Proof.
  revert acc; induction a as [|c a IH]; intros acc; simpl.
  - rewrite app_nil_r; intros _ Hb Hk.
    destruct b as [|d b]; simpl; [exact Hk|].
    simpl in Hb; now rewrite Hb.
  - rewrite andb_true_iff; intros [-> Ha] Hb Hk.
    rewrite (IH (acc ++ [c]) Ha Hb); [reflexivity|].
    now rewrite <- app_assoc.
Qed.

(** No run succeeds when the continuation fails after every run. *)
Lemma greedyStar_none {A : Type} (p : Z -> bool)
      (k : jsstring -> jsstring -> option A) (s acc : jsstring) :
  (forall a b, s = a ++ b -> forallb p a = true -> k (acc ++ a) b = None) ->
  greedyStar p k acc s = None.
Proof.
  intros H.
  destruct (greedyStar p k acc s) as [r|] eqn:E; [|reflexivity].
  destruct (greedyStar_sound _ _ _ _ _ E) as [a [b [Hs [Ha Hk]]]].
  rewrite (H a b Hs Ha) in Hk; discriminate.
Qed.

Lemma captureToEnd_sound (s t : jsstring) : captureToEnd s = Some t -> t = s.
Proof.
  intros H; apply greedyStar_sound in H.
  destruct H as [a [b [-> [_ Hk]]]].
  destruct b; [|discriminate].
  injection Hk as <-; now rewrite app_nil_r.
Qed.

Lemma captureToEnd_complete (s : jsstring) :
  forallb isDot s = true -> captureToEnd s = Some s.
Proof.
  intros H; unfold captureToEnd.
  rewrite <- (app_nil_r s) at 1.
  now apply greedyStar_first.
Qed.

Lemma spacesThenCapture_sound (s t : jsstring) :
  spacesThenCapture s = Some t ->
  exists ws, ws <> [] /\ forallb isWhiteSpace ws = true /\ s = ws ++ t.
Proof.
  unfold spacesThenCapture, greedyPlus.
  destruct s as [|c s]; [discriminate|].
  destruct (isWhiteSpace c) eqn:Hc; [|discriminate].
  intros H; apply greedyStar_sound in H.
  destruct H as [a [b [-> [Ha Hk]]]].
  apply captureToEnd_sound in Hk; subst t.
  exists (c :: a); simpl; rewrite Hc, Ha; repeat split; congruence.
Qed.

Lemma spacesThenCapture_complete (ws t : jsstring) :
  ws <> [] -> forallb isWhiteSpace ws = true ->
  stopsAt isWhiteSpace t -> forallb isDot t = true ->
  spacesThenCapture (ws ++ t) = Some t.
Proof.
  intros Hne Hws Ht Hdot.
  destruct ws as [|c ws]; [congruence|].
  simpl in Hws; apply andb_true_iff in Hws as [Hc Hws].
  unfold spacesThenCapture; simpl; rewrite Hc.
  apply greedyStar_first; auto using captureToEnd_complete.
Qed.

End PatternFacts.

Import PatternFacts.

(** ** The suggestion extractor *)

Module ExtractorFacts.

Import Extractor.

Lemma bulletMatch_suffix (line t : jsstring) :
  bulletMatch line = Some t -> exists pre, line = pre ++ t.
Proof.
  destruct line as [|c s]; simpl; [discriminate|].
  destruct (isBulletMarker c); [|discriminate].
  intros H; apply spacesThenCapture_sound in H as [ws [_ [_ ->]]].
  now exists (c :: ws).
Qed.

Lemma numberedMatch_suffix (line t : jsstring) :
  numberedMatch line = Some t -> exists pre, line = pre ++ t.
Proof.
  unfold numberedMatch, greedyPlus.
  destruct line as [|c s]; [discriminate|].
  destruct (isDigit c); [|discriminate].
  intros H; apply greedyStar_sound in H as [a [b [-> [_ Hk]]]].
  destruct b as [|d b]; [discriminate|].
  destruct (d =? 46); [|discriminate].
  apply spacesThenCapture_sound in Hk as [ws [_ [_ ->]]].
  exists (c :: a ++ d :: ws); simpl; now rewrite <- app_assoc.
Qed.

Lemma truthyGroup_some (m : option jsstring) (t : jsstring) :
  truthyGroup m = Some t -> m = Some t /\ t <> [].
Proof.
  destruct m as [[|c s]|]; simpl; try discriminate.
  intros [= <-]; split; congruence.
Qed.

(** A collected text is a non-empty tail of the line. *)
Lemma itemText_suffix (line t : jsstring) :
  itemText line = Some t -> t <> [] /\ exists pre, line = pre ++ t.
Proof.
  unfold itemText.
  destruct (truthyGroup (bulletMatch line)) as [t0|] eqn:E.
  - intros [= ->]; apply truthyGroup_some in E as [E Hne].
    split; [exact Hne | eapply bulletMatch_suffix; eauto].
  - intros H; apply truthyGroup_some in H as [H Hne].
    split; [exact Hne | eapply numberedMatch_suffix; eauto].
Qed.

(** A line that starts with a hash matches neither list pattern. *)
Lemma itemText_heading (line : jsstring) :
  startsWith [35] line = true -> itemText line = None.
Proof.
  destruct line as [|c s]; [simpl; discriminate|].
  cbn [startsWith].
  rewrite andb_true_iff, Z.eqb_eq; intros [<- _]; reflexivity.
Qed.

(** A marker, white space and a text on one line: the text is the item. *)
Lemma itemText_bullet (c : Z) (ws t : jsstring) :
  isBulletMarker c = true -> ws <> [] -> forallb isWhiteSpace ws = true ->
  t <> [] -> noLeadingWS t -> forallb isDot t = true ->
  itemText (c :: ws ++ t) = Some t.
Proof.
  intros Hc Hne Hws Ht Hlead Hdot.
  unfold itemText, bulletMatch; rewrite Hc.
  rewrite (spacesThenCapture_complete ws t Hne Hws Hlead Hdot).
  destruct t; [congruence | reflexivity].
Qed.

Lemma numbered_bare_run (ds acc : jsstring) :
  forallb isDigit ds = true ->
  greedyStar isDigit
    (fun _ rest =>
       match rest with
       | c :: s => if c =? 46 then spacesThenCapture s else None
       | [] => None
       end) acc (ds ++ [46]) = None.
Proof.
  revert acc; induction ds as [|d ds IH]; intros acc; simpl; [reflexivity|].
  rewrite andb_true_iff; intros [Hd Hds].
  rewrite Hd, (IH _ Hds).
  unfold isDigit in Hd.
  destruct (d =? 46) eqn:E; [|reflexivity].
  apply Z.eqb_eq in E; subst d; discriminate.
Qed.

(** A bare marker matches neither list pattern. *)
Lemma itemText_bare (m : jsstring) : bareMarker m -> itemText m = None.
Proof.
  intros [->|[->|[ds [Hne [Hds ->]]]]]; try reflexivity.
  destruct ds as [|d ds]; [congruence|].
  pose proof Hds as Hall.
  simpl in Hds; apply andb_true_iff in Hds as [Hd Hds].
  unfold itemText, bulletMatch, numberedMatch, greedyPlus; simpl.
  replace (isBulletMarker d) with false.
  - simpl; rewrite Hd, (numbered_bare_run ds [d] Hds); reflexivity.
  - unfold isDigit in Hd; unfold isBulletMarker.
    symmetry; apply orb_false_iff; split; apply Z.eqb_neq; lia.
Qed.

Lemma digit_not_space (d : Z) : isDigit d = true -> isWhiteSpace d = false.
Proof.
  unfold isDigit, isWhiteSpace; rewrite andb_true_iff, !Z.leb_le; intros H.
  decide_comparisons; reflexivity.
Qed.

Lemma bareMarker_trimmed (m : jsstring) :
  bareMarker m -> m <> [] /\ noLeadingWS m /\ noTrailingWS m.
Proof.
  intros [->|[->|[ds [Hne [Hds ->]]]]].
  - repeat split; discriminate.
  - repeat split; discriminate.
  - destruct ds as [|d ds]; [congruence|].
    simpl in Hds; apply andb_true_iff in Hds as [Hd _].
    repeat split; [discriminate | | ].
    + now apply digit_not_space.
    + unfold noTrailingWS; rewrite rev_app_distr; reflexivity.
Qed.

Section WithCaseMapping.

Variable toLowerCase : jsstring -> jsstring.

#[local] Abbreviation isHeader := (isHeader toLowerCase).
#[local] Abbreviation afterHeader := (afterHeader toLowerCase).
#[local] Abbreviation loopBody := (loopBody toLowerCase).
#[local] Abbreviation scan := (scan toLowerCase).
#[local] Abbreviation extractFromText := (extractFromText toLowerCase).

Lemma isHeader_spec (line : jsstring) :
  isHeader line = true <-> headerText (toLowerCase (trim line)).
Proof.
  unfold Extractor.isHeader, headerText.
  rewrite !orb_true_iff, !eqb_eq; tauto.
Qed.

Lemma afterHeader_some (lines rest : list jsstring) :
  afterHeader lines = Some rest ->
  exists before line,
    lines = before ++ line :: rest /\ isHeader line = true /\
    Forall (fun l => isHeader l = false) before.
Proof.
  revert rest; induction lines as [|l lines IH]; intros rest; simpl;
    [discriminate|].
  destruct (isHeader l) eqn:E.
  - intros [= <-]; exists [], l; auto.
  - intros H; destruct (IH _ H) as [before [line [-> [H1 H2]]]].
    exists (l :: before), line; auto.
Qed.

Lemma afterHeader_none (lines : list jsstring) :
  (forall l, In l lines -> isHeader l = false) -> afterHeader lines = None.
Proof.
  induction lines as [|l lines IH]; simpl; [reflexivity|].
  intros H; rewrite (H l) by now left.
  apply IH; intros; apply H; now right.
Qed.

(** The loop body only looks at whether the trimmed line is blank and
    whether it matches a list pattern: a heading takes the same way as any
    other line that is no list item. *)
Lemma loopBody_eq (raw : jsstring) (suggestions : list jsstring) :
  loopBody raw suggestions =
  match trim raw with
  | [] => Continue suggestions
  | _ :: _ =>
      match itemText (trim raw) with
      | Some text =>
          if (5 <=? length (suggestions ++ [trim text]))%nat
          then Break (suggestions ++ [trim text])
          else Continue (suggestions ++ [trim text])
      | None =>
          if (0 <? length suggestions)%nat then Break suggestions
          else Continue suggestions
      end
  end.
Proof.
  unfold Extractor.loopBody.
  destruct (trim raw) as [|c s] eqn:E; [reflexivity|].
  destruct (isOtherHeading toLowerCase (c :: s)) eqn:H; [|reflexivity].
  unfold isOtherHeading in H; apply andb_true_iff in H as [H _].
  now rewrite (itemText_heading _ H).
Qed.

Lemma loopBody_skip (raw : jsstring) :
  itemText (trim raw) = None -> loopBody raw [] = Continue [].
Proof.
  intros H; rewrite loopBody_eq, H; now destruct (trim raw).
Qed.

Lemma loopBody_stop (raw : jsstring) (suggestions : list jsstring) :
  suggestions <> [] -> trim raw <> [] -> itemText (trim raw) = None ->
  loopBody raw suggestions = Break suggestions.
Proof.
  intros Hs Hl H; rewrite loopBody_eq, H.
  destruct (trim raw); [congruence|].
  destruct suggestions; [congruence | reflexivity].
Qed.

Lemma loopBody_blank (raw : jsstring) (suggestions : list jsstring) :
  trim raw = [] -> loopBody raw suggestions = Continue suggestions.
Proof. intros H; now rewrite loopBody_eq, H. Qed.

Lemma scan_blanks (blanks rest : list jsstring) (suggestions : list jsstring) :
  Forall (fun l => trim l = []) blanks ->
  scan (blanks ++ rest) suggestions = scan rest suggestions.
Proof.
  induction 1 as [|l blanks Hl _ IH]; simpl; [reflexivity|].
  now rewrite (loopBody_blank _ _ Hl).
Qed.

Lemma scan_skip (skipped rest : list jsstring) :
  Forall (fun l => itemText (trim l) = None) skipped ->
  scan (skipped ++ rest) [] = scan rest [].
Proof.
  induction 1 as [|l skipped Hl _ IH]; simpl; [reflexivity|].
  now rewrite (loopBody_skip _ Hl).
Qed.

Lemma loopBody_clean (raw : jsstring) (suggestions : list jsstring) :
  Forall Clean suggestions ->
  match loopBody raw suggestions with
  | Continue s | Break s => Forall Clean s
  end.
Proof.
  intros H; rewrite loopBody_eq.
  destruct (trim raw) as [|c s] eqn:E; [exact H|].
  destruct (itemText (c :: s)) as [text|] eqn:Ht.
  - assert (Hc : Forall Clean (suggestions ++ [trim text])).
    { apply Forall_app; split; [exact H|].
      constructor; [|constructor].
      apply itemText_suffix in Ht as [Hne [pre Hpre]].
      repeat split; [|apply trim_noLeading|apply trim_noTrailing].
      apply (trim_tail_nonempty pre); [exact Hne|].
      rewrite <- Hpre, <- E; apply trim_noTrailing. }
    now destruct (5 <=? _)%nat.
  - now destruct (0 <? _)%nat.
Qed.

Lemma scan_clean (lines : list jsstring) (suggestions : list jsstring) :
  Forall Clean suggestions -> Forall Clean (scan lines suggestions).
Proof.
  revert suggestions; induction lines as [|raw lines IH]; intros sugg H;
    simpl; [exact H|].
  pose proof (loopBody_clean raw sugg H) as Hb.
  destruct (loopBody raw sugg); auto.
Qed.

(** *** ASCII replies: the case mapping is the ASCII one *)

Lemma isAscii_app (a b : jsstring) : isAscii (a ++ b) <-> isAscii a /\ isAscii b.
Proof. unfold isAscii; rewrite forallb_app; apply andb_true_iff. Qed.

Lemma isAscii_trim (s : jsstring) : isAscii s -> isAscii (trim s).
Proof.
  unfold trim; intros H.
  destruct (trimStart_split s) as [a [Ha _]].
  destruct (trimEnd_split (trimStart s)) as [b [Hb _]].
  rewrite Ha in H; apply isAscii_app in H as [_ H].
  rewrite Hb in H; now apply isAscii_app in H as [H _].
Qed.

Lemma isAscii_splitLines (s : jsstring) :
  isAscii s -> Forall isAscii (splitLines s).
Proof.
  induction s as [|c s IH]; intros H.
  - repeat constructor.
  - change (isAscii ([c] ++ s)) in H; apply isAscii_app in H as [Hc Hs].
    specialize (IH Hs); simpl.
    destruct (c =? LF); [constructor; [reflexivity | exact IH]|].
    destruct (splitLines s) as [|l ls]; [repeat constructor; exact Hc|].
    inversion IH; subst; constructor; [|assumption].
    change (isAscii ([c] ++ l)); apply isAscii_app; auto.
Qed.

Hypothesis toLowerCase_ascii : AsciiFaithful toLowerCase.

Lemma isHeader_ascii (line : jsstring) :
  isAscii line -> isHeader line = Extractor.isHeader asciiToLowerCase line.
Proof.
  intros H; unfold Extractor.isHeader.
  now rewrite (toLowerCase_ascii _ (isAscii_trim _ H)).
Qed.

Lemma afterHeader_ascii (lines : list jsstring) :
  Forall isAscii lines ->
  afterHeader lines = Extractor.afterHeader asciiToLowerCase lines.
Proof.
  induction 1 as [|l lines Hl _ IH]; simpl; [reflexivity|].
  now rewrite (isHeader_ascii _ Hl), IH.
Qed.

Lemma afterHeader_Forall (P : jsstring -> Prop) (lines rest : list jsstring) :
  Forall P lines -> afterHeader lines = Some rest -> Forall P rest.
Proof.
  induction 1 as [|l lines Hl Hall IH]; simpl; [discriminate|].
  destruct (isHeader l); [now intros [= <-] | exact IH].
Qed.

Lemma loopBody_ascii (raw : jsstring) (suggestions : list jsstring) :
  isAscii raw ->
  loopBody raw suggestions = Extractor.loopBody asciiToLowerCase raw suggestions.
Proof.
  intros H; apply isAscii_trim in H.
  unfold Extractor.loopBody; cbv zeta.
  destruct (trim raw) as [|c s]; [reflexivity|].
  unfold isOtherHeading; now rewrite (toLowerCase_ascii _ H).
Qed.

Lemma scan_ascii (lines : list jsstring) (suggestions : list jsstring) :
  Forall isAscii lines ->
  scan lines suggestions = Extractor.scan asciiToLowerCase lines suggestions.
Proof.
  intros H; revert suggestions.
  induction H as [|l lines Hl _ IH]; intros sugg; simpl; [reflexivity|].
  rewrite (loopBody_ascii _ _ Hl).
  destruct (Extractor.loopBody asciiToLowerCase l sugg); auto.
Qed.

(** On an ASCII reply the extractor is the one with the ASCII mapping. *)
Lemma extract_ascii (content : jsstring) :
  isAscii content ->
  extractFromText content = Extractor.extractFromText asciiToLowerCase content.
Proof.
  intros H; unfold Extractor.extractFromText.
  destruct content as [|c s]; [reflexivity|].
  pose proof (isAscii_splitLines _ H) as Hl.
  rewrite (afterHeader_ascii _ Hl).
  destruct (afterHeader (splitLines (c :: s))) as [rest|] eqn:E;
    rewrite (afterHeader_ascii _ Hl) in E; rewrite E; [|reflexivity].
  apply scan_ascii.
  rewrite <- (afterHeader_ascii _ Hl) in E.
  exact (afterHeader_Forall _ _ _ Hl E).
Qed.

End WithCaseMapping.

End ExtractorFacts.

Import Extractor ExtractorFacts.

(** *** Claims about the extractor *)

(** C5. On the sample reply -- the suggestions heading, two bullet lines, a
    blank line and [More text] -- the extractor returns exactly
    [What is X?] and [How does Y work?].  In general, once at least one
    suggestion is collected, the first non-blank line that matches no list
    pattern ends the loop: blank lines before it are passed over, and the
    lines after it are never looked at. *)
Theorem sample_reply_and_end_of_list (toLowerCase : jsstring -> jsstring) :
  (AsciiFaithful toLowerCase ->
   extractFollowUpSuggestions toLowerCase (VString sampleReply)
   = [u "What is X?"; u "How does Y work?"])
  /\
  (forall (blanks : list jsstring) (raw : jsstring) (rest : list jsstring)
          (suggestions : list jsstring),
      suggestions <> [] ->
      Forall (fun l => trim l = []) blanks ->
      trim raw <> [] ->
      itemText (trim raw) = None ->
      loopBody toLowerCase raw suggestions = Break suggestions /\
      scan toLowerCase (blanks ++ raw :: rest) suggestions = suggestions).
Proof.
  split.
  - intros H; cbn [extractFollowUpSuggestions].
    rewrite (extract_ascii _ H) by reflexivity.
    vm_compute; reflexivity.
  - intros blanks raw rest sugg Hs Hb Hl Hi.
    pose proof (loopBody_stop toLowerCase raw sugg Hs Hl Hi) as Hstop.
    split; [exact Hstop|].
    rewrite scan_blanks by exact Hb.
    simpl; now rewrite Hstop.
Qed.

Lemma sample_reply_and_end_of_list_witness :
  extractFollowUpSuggestions asciiToLowerCase (VString sampleReply)
  = [u "What is X?"; u "How does Y work?"]
  /\ scan asciiToLowerCase
       ([[]; u "  "] ++ u "More text" :: [u "- What about Z?"])
       [u "What is X?"; u "How does Y work?"]
     = [u "What is X?"; u "How does Y work?"].
Proof.
  split.
  - apply (proj1 (sample_reply_and_end_of_list asciiToLowerCase)).
    intros s _; reflexivity.
  - apply (proj2 (sample_reply_and_end_of_list asciiToLowerCase)
             [[]; u "  "] (u "More text") [u "- What about Z?"]
             [u "What is X?"; u "How does Y work?"]).
    + discriminate.
    + repeat constructor.
    + discriminate.
    + reflexivity.
Defined.

(** C8. The extractor returns a non-empty list only if some line of the
    reply, trimmed and lowercased, is [follow-up suggestions:], is
    [follow-up suggestions], or starts with [### follow-up suggestions];
    with no such line the result is empty, as for [No section here]. *)
Theorem header_is_a_hard_gate (toLowerCase : jsstring -> jsstring) :
  (forall content : value,
      extractFollowUpSuggestions toLowerCase content <> [] ->
      exists text line,
        content = VString text /\ In line (splitLines text) /\
        headerText (toLowerCase (trim line)))
  /\
  (forall text : jsstring,
      (forall line, In line (splitLines text) ->
                    ~ headerText (toLowerCase (trim line))) ->
      extractFollowUpSuggestions toLowerCase (VString text) = [])
  /\
  (AsciiFaithful toLowerCase ->
   extractFollowUpSuggestions toLowerCase (VString (u "No section here")) = []).
Proof.
  split; [|split].
  - intros content H.
    destruct content as [| | | |text| |]; try (simpl in H; congruence).
    exists text; unfold extractFollowUpSuggestions, extractFromText in H.
    destruct text as [|c s]; [congruence|].
    destruct (afterHeader toLowerCase (splitLines (c :: s))) as [rest|] eqn:E;
      [|congruence].
    apply afterHeader_some in E as [before [line [E [Hh _]]]].
    exists line; split; [reflexivity|].
    split; [rewrite E; apply in_elt | now apply isHeader_spec].
  - intros content H; unfold extractFollowUpSuggestions, extractFromText.
    destruct content as [|c s]; [reflexivity|].
    rewrite afterHeader_none; [reflexivity|].
    intros l Hl; specialize (H l Hl).
    destruct (isHeader toLowerCase l) eqn:E; [|reflexivity].
    now apply isHeader_spec in E.
  - intros H; cbn [extractFollowUpSuggestions].
    rewrite (extract_ascii _ H) by reflexivity.
    vm_compute; reflexivity.
Qed.

Lemma header_is_a_hard_gate_witness :
  (exists text line,
      VString sampleReply = VString text /\ In line (splitLines text) /\
      headerText (asciiToLowerCase (trim line)))
  /\ extractFollowUpSuggestions asciiToLowerCase
       (VString (u "Suggestions: none")) = []
  /\ extractFollowUpSuggestions asciiToLowerCase
       (VString (u "No section here")) = [].
Proof.
  split; [|split].
  - apply (proj1 (header_is_a_hard_gate asciiToLowerCase) (VString sampleReply)).
    vm_compute; discriminate.
  - apply (proj1 (proj2 (header_is_a_hard_gate asciiToLowerCase))).
    intros line [<-|[]] [H|[H|H]]; vm_compute in H; discriminate.
  - apply (proj2 (proj2 (header_is_a_hard_gate asciiToLowerCase))).
    intros s _; reflexivity.
Defined.

(** C9, as stated, fails: a heading met before any suggestion is collected
    does not end the loop.  On [headingThenBullet] the line
    [# Another heading] is passed over and the bullet after it is
    collected. *)
Lemma heading_before_first_item_is_skipped :
  isOtherHeading asciiToLowerCase (trim (u "# Another heading")) = true
  /\ loopBody asciiToLowerCase (u "# Another heading") [] = Continue []
  /\ extractFollowUpSuggestions asciiToLowerCase (VString headingThenBullet)
     = [u "Still collected?"]
  /\ ~ HeadingAlwaysStops asciiToLowerCase.
Proof.
  split; [reflexivity|].
  split; [reflexivity|].
  split; [vm_compute; reflexivity|].
  intros H.
  destruct (H (u "# Another heading") []) as [s Hs]; [reflexivity|].
  vm_compute in Hs; discriminate.
Qed.

(** The same reply under any case mapping that is the ASCII one on ASCII
    strings, [String.prototype.toLowerCase] among them. *)
Remark heading_then_bullet_under_any_mapping
       (toLowerCase : jsstring -> jsstring) :
  AsciiFaithful toLowerCase ->
  extractFollowUpSuggestions toLowerCase (VString headingThenBullet)
  = [u "Still collected?"].
Proof.
  intros H; cbn [extractFollowUpSuggestions].
  rewrite (extract_ascii _ H) by reflexivity.
  vm_compute; reflexivity.
Qed.

(** C9, amended.  Before any suggestion is collected every line that
    matches no list pattern is passed over -- blank lines, headings and
    prose alike -- so a bullet separated from the header by such lines is
    still collected.  The loop is only ever left early in two ways: once at
    least one suggestion exists, at a non-blank line that matches no list
    pattern (a heading or not), or on collecting the fifth suggestion. *)
Theorem lines_before_first_item_are_skipped (toLowerCase : jsstring -> jsstring) :
  (forall raw : jsstring,
      itemText (trim raw) = None ->
      loopBody toLowerCase raw [] = Continue [])
  /\
  (forall (skipped : list jsstring) (c : Z) (ws t : jsstring)
          (rest : list jsstring),
      Forall (fun l => itemText (trim l) = None) skipped ->
      isBulletMarker c = true ->
      ws <> [] -> forallb isWhiteSpace ws = true ->
      Clean t -> forallb isDot t = true ->
      scan toLowerCase (skipped ++ (c :: ws ++ t) :: rest) []
      = scan toLowerCase rest [t])
  /\
  (forall (raw : jsstring) (suggestions s : list jsstring),
      loopBody toLowerCase raw suggestions = Break s <->
      (suggestions <> [] /\ trim raw <> [] /\ itemText (trim raw) = None
       /\ s = suggestions)
      \/
      (exists text, itemText (trim raw) = Some text
                    /\ s = suggestions ++ [trim text]
                    /\ (5 <= length s)%nat)).
Proof.
  split; [|split].
  - apply loopBody_skip.
  - intros skipped c ws t rest Hskip Hc Hne Hws [Ht [Hlead Htrail]] Hdot.
    rewrite scan_skip by exact Hskip.
    assert (Hline : trim (c :: ws ++ t) = c :: ws ++ t).
    { apply trim_fixed.
      - unfold isBulletMarker in Hc; apply orb_true_iff in Hc.
        rewrite !Z.eqb_eq in Hc; destruct Hc as [->| ->]; reflexivity.
      - unfold noTrailingWS in *.
        change (c :: ws ++ t) with ([c] ++ ws ++ t).
        rewrite !rev_app_distr.
        destruct (rev t) as [|d r] eqn:E; [|exact Htrail].
        apply (f_equal (@rev Z)) in E; rewrite rev_involutive in E.
        simpl in E; congruence. }
    simpl; rewrite loopBody_eq, Hline.
    rewrite (itemText_bullet c ws t Hc Hne Hws Ht Hlead Hdot).
    now rewrite (trim_fixed t Hlead Htrail).
  - intros raw sugg s; rewrite loopBody_eq; split.
    + destruct (trim raw) as [|c l] eqn:E; [discriminate|].
      destruct (itemText (c :: l)) as [text|] eqn:Ht.
      * destruct (5 <=? length (sugg ++ [trim text]))%nat eqn:E5;
          [|discriminate].
        intros [= <-]; right; exists text.
        apply Nat.leb_le in E5; auto.
      * destruct sugg as [|x sugg]; [discriminate|].
        intros [= <-]; left; repeat split; congruence.
    + intros [[Hs [Hl [Hi ->]]] | [text [Hi [-> H5]]]].
      * rewrite Hi; destruct (trim raw); [congruence|].
        destruct sugg; [congruence | reflexivity].
      * rewrite Hi; destruct (trim raw) as [|c l]; [discriminate|].
        apply Nat.leb_le in H5; now rewrite H5.
Qed.

Lemma lines_before_first_item_are_skipped_witness :
  loopBody asciiToLowerCase (u "Here are some ideas you could try next.") []
  = Continue []
  /\ scan asciiToLowerCase
       ([u "Here are some ideas:"; []; u "## Next"]
        ++ (45 :: u " " ++ u "What is X?") :: [u "done"]) []
     = scan asciiToLowerCase [u "done"] [u "What is X?"]
  /\ loopBody asciiToLowerCase (u "More text") [u "What is X?"]
     = Break [u "What is X?"].
Proof.
  split; [|split].
  - apply (proj1 (lines_before_first_item_are_skipped asciiToLowerCase)).
    reflexivity.
  - apply (proj1 (proj2 (lines_before_first_item_are_skipped asciiToLowerCase))).
    + repeat constructor.
    + reflexivity.
    + discriminate.
    + reflexivity.
    + repeat split; discriminate.
    + reflexivity.
  - apply (proj2 (proj2 (lines_before_first_item_are_skipped asciiToLowerCase))).
    left; repeat split; discriminate.
Defined.

(** C10. Every string the extractor returns is non-empty and has no white
    space at either end; a line that is only a bullet or numbered marker,
    with nothing but white space around it, adds no item. *)
Theorem suggestions_are_trimmed_and_non_empty (toLowerCase : jsstring -> jsstring) :
  (forall content : value,
      Forall Clean (extractFollowUpSuggestions toLowerCase content))
  /\
  (forall (before m after : jsstring) (suggestions : list jsstring),
      bareMarker m ->
      forallb isWhiteSpace before = true ->
      forallb isWhiteSpace after = true ->
      itemText (trim (before ++ m ++ after)) = None /\
      stepResult (loopBody toLowerCase (before ++ m ++ after) suggestions)
      = suggestions).
Proof.
  split.
  - intros content; unfold extractFollowUpSuggestions, extractFromText.
    destruct content as [| | | |[|c s]| |]; try constructor.
    destruct (afterHeader toLowerCase (splitLines (c :: s)));
      [apply scan_clean|]; constructor.
  - intros before m after sugg Hm Hb Ha.
    assert (Hline : trim (before ++ m ++ after) = m).
    { destruct (bareMarker_trimmed m Hm) as [Hne [Hl Ht]].
      unfold trim; rewrite trimStart_skips by exact Hb.
      now apply trim_core. }
    assert (Hi : itemText (trim (before ++ m ++ after)) = None)
      by (rewrite Hline; now apply itemText_bare).
    split; [exact Hi|].
    rewrite loopBody_eq, Hi.
    destruct (trim (before ++ m ++ after)); [reflexivity|].
    now destruct (0 <? length sugg)%nat.
Qed.

Lemma suggestions_are_trimmed_and_non_empty_witness :
  Forall Clean (extractFollowUpSuggestions asciiToLowerCase (VString sampleReply))
  /\ stepResult
       (loopBody asciiToLowerCase (u "  " ++ u "12." ++ u "   ")
          [u "What is X?"])
     = [u "What is X?"].
Proof.
  split.
  - apply (proj1 (suggestions_are_trimmed_and_non_empty asciiToLowerCase)).
  - apply (proj2 (suggestions_are_trimmed_and_non_empty asciiToLowerCase)
             (u "  ") (u "12.") (u "   ") [u "What is X?"]).
    + right; right; exists (u "12"); repeat split; discriminate.
    + reflexivity.
    + reflexivity.
Defined.

(** ** The request sanitizer *)

Module SanitizerFacts.

Import Server.

Lemma sliceLast_length {A : Type} (n : nat) (l : list A) :
  (length (sliceLast n l) <= n)%nat.
Proof. unfold sliceLast; rewrite length_skipn; lia. Qed.

Lemma sliceLast_short {A : Type} (n : nat) (l : list A) :
  (length l <= n)%nat -> sliceLast n l = l.
Proof.
  intros H; unfold sliceLast.
  replace (length l - n)%nat with 0%nat by lia; reflexivity.
Qed.

Lemma envOr_length_default (fallback : jsstring) :
  envOr None fallback = fallback /\ envOr (Some []) fallback = fallback.
Proof. split; reflexivity. Qed.

Lemma hasSystem_true (safe : list ChatTurn) :
  hasSystem safe = true <-> exists t, In t safe /\ role t = u "system".
Proof.
  unfold hasSystem; rewrite existsb_exists.
  split; intros [t [H1 H2]]; exists t; split; auto; now apply eqb_eq.
Qed.

Lemma hasSystem_false (safe : list ChatTurn) :
  hasSystem safe = false <-> forall t, In t safe -> role t <> u "system".
Proof.
  split.
  - intros H t Hin Hr.
    assert (hasSystem safe = true) by (apply hasSystem_true; eauto).
    congruence.
  - intros H; destruct (hasSystem safe) eqn:E; [|reflexivity].
    apply hasSystem_true in E as [t [H1 H2]]; now apply H in H1.
Qed.

Section WithNumberToString.

Variable numberToString : spec_float -> jsstring.

#[local] Abbreviation sanitizeEntry := (sanitizeEntry numberToString).
#[local] Abbreviation sanitizeLoop := (sanitizeLoop numberToString).
#[local] Abbreviation sanitizeMessages := (sanitizeMessages numberToString).
#[local] Abbreviation sanitizeRequest := (sanitizeRequest numberToString).

(** The loop pushes, in order, the turn of every entry that has one. *)
Lemma sanitizeLoop_flat_map (trimmed : list value) (safe : list ChatTurn) :
  sanitizeLoop trimmed safe = safe ++ flat_map (survivors sanitizeEntry) trimmed.
Proof.
  revert safe; induction trimmed as [|m rest IH]; intros safe; simpl.
  - now rewrite app_nil_r.
  - unfold survivors at 1.
    destruct (sanitizeEntry m) as [turn|]; rewrite IH; simpl; [|reflexivity].
    now rewrite <- app_assoc.
Qed.

Lemma sanitizeMessages_flat_map (items : list value) :
  sanitizeMessages (VArray items)
  = flat_map (survivors sanitizeEntry) (sliceLast MAX_MESSAGES items).
Proof. unfold Server.sanitizeMessages; now rewrite sanitizeLoop_flat_map. Qed.

Lemma survivors_length (l : list value) :
  (length (flat_map (survivors sanitizeEntry) l) <= length l)%nat.
Proof.
  induction l as [|m l IH]; simpl; [lia|].
  rewrite length_app; unfold survivors at 1.
  destruct (sanitizeEntry m); simpl; lia.
Qed.

Lemma sanitizeMessages_length (raw : value) :
  (length (sanitizeMessages raw) <= MAX_MESSAGES)%nat.
Proof.
  destruct raw; try (simpl; lia).
  rewrite sanitizeMessages_flat_map.
  etransitivity; [apply survivors_length | apply sliceLast_length].
Qed.

(** What survives of one entry. *)
Lemma sanitizeEntry_some (m : value) (t : ChatTurn) :
  sanitizeEntry m = Some t <->
  isObjectLike m = true /\
  exists text,
    Coerced (ToString numberToString) (get m (u "content")) text /\
    trim text <> [] /\
    t = {| role := coercedRole (get m (u "role"));
           content := firstn MAX_CHARS (trim text) |}.
Proof.
  unfold Server.sanitizeEntry.
  destruct (isObjectLike m); simpl;
    [|split; [discriminate | intros [[=] _]]].
  assert (Hrole : (if allowedRoles (get m (u "role"))
                   then match get m (u "role") with
                        | VString s => s | _ => u "user" end
                   else u "user") = coercedRole (get m (u "role"))).
  { unfold allowedRoles, coercedRole.
    destruct (get m (u "role")); try reflexivity. }
  rewrite Hrole; clear Hrole.
  assert (Hcut : forall n : jsstring,
             (if (MAX_CHARS <? length n)%nat then slice0 MAX_CHARS n else n)
             = firstn MAX_CHARS n).
  { intros n; unfold slice0.
    destruct (MAX_CHARS <? length n)%nat eqn:E; [reflexivity|].
    apply Nat.ltb_ge in E; symmetry; now apply firstn_all2. }
  set (text := match get m (u "content") with
               | VString s => Some s
               | VUndefined | VNull => None
               | _ => ToString numberToString (get m (u "content"))
               end).
  assert (Htext : forall x, text = Some x <->
                            Coerced (ToString numberToString)
                                    (get m (u "content")) x).
  { intros x; unfold text, Coerced.
    destruct (get m (u "content")); try tauto;
      try (split; [discriminate | tauto]).
    split; [now intros [= ->] | now intros ->]. }
  split.
  - destruct text as [c|]; [|discriminate].
    destruct (trim c) as [|a n] eqn:E; [discriminate|].
    rewrite Hcut; intros [= <-]; split; [reflexivity|].
    exists c; rewrite E; repeat split; [now apply Htext | discriminate].
  - intros [_ [x [Hx [Hne ->]]]].
    apply Htext in Hx; rewrite Hx.
    destruct (trim x) as [|a n] eqn:E; [congruence|].
    now rewrite Hcut.
Qed.

Lemma sanitizeEntry_bounds (m : value) (t : ChatTurn) :
  sanitizeEntry m = Some t ->
  content t <> [] /\ (length (content t) <= MAX_CHARS)%nat.
Proof.
  intros H; apply sanitizeEntry_some in H as [_ [text [_ [Hne ->]]]].
  cbn [content]; split; [|apply firstn_le_length].
  destruct (trim text); [congruence | discriminate].
Qed.

Lemma sanitizeMessages_bounds (raw : value) :
  Forall (fun t => content t <> [] /\ (length (content t) <= MAX_CHARS)%nat)
         (sanitizeMessages raw).
Proof.
  destruct raw; try constructor.
  rewrite sanitizeMessages_flat_map.
  apply Forall_flat_map, Forall_forall; intros m _.
  unfold survivors; destruct (sanitizeEntry m) as [t|] eqn:E; [|constructor].
  constructor; [now apply sanitizeEntry_bounds in E | constructor].
Qed.

(** A forwarded request carries the composed messages of the survivors. *)
Lemma sanitizeRequest_messages (env : Env) (reqBody : value) :
  requestMessages (sanitizeRequest env reqBody)
  = match sanitizeMessages (get (bodyOrEmpty reqBody) (u "messages")) with
    | [] => []
    | safe => finalMessages env safe
    end.
Proof.
  unfold Server.sanitizeRequest.
  now destruct (sanitizeMessages (get (bodyOrEmpty reqBody) (u "messages"))).
Qed.

End WithNumberToString.

End SanitizerFacts.

Import Server SanitizerFacts.

(** *** Claims about the sanitizer *)

(** C1, as stated, fails.  Fifty user turns survive as fifty turns, none of
    role system, and the composition prepends a system turn: 51 turns.  And
    the prepended turn carries the configured prompt unshortened: with a
    [SYSTEM_PROMPT] of 4001 code units its content has 4425. *)
Lemma fifty_turns_get_a_system_turn_on_top :
  (forall nts,
      length (requestMessages
                (sanitizeRequest nts plainEnv (bodyWith fiftyUserTurns)))
      = 51%nat)
  /\ (forall nts,
         map (fun t => length (content t))
             (requestMessages
                (sanitizeRequest nts longPromptEnv
                   (bodyWith (VArray [userEntry (u "hi")]))))
         = [4425; 2]%nat)
  /\ (forall nts, ~ ComposedWithinBounds nts).
Proof.
  split; [|split].
  - intros nts; vm_compute; reflexivity.
  - intros nts; vm_compute; reflexivity.
  - intros nts H.
    destruct (H plainEnv (bodyWith fiftyUserTurns)) as [Hlen _].
    vm_compute in Hlen; lia.
Qed.

(** C1, amended.  What [sanitizeMessages] returns is at most 50 turns, each
    with a non-empty content of at most 4000 code units.  The composed
    messages of a request are those turns, with at most one synthesized
    system turn on top: at most 51 turns; every turn but the synthesized
    one is within 4000 code units, and the synthesized one carries the base
    prompt, a blank line and the 422 code units of the formatting
    instruction, unshortened (554 code units with the built-in prompt). *)
Theorem sanitized_turns_are_bounded (numberToString : spec_float -> jsstring)
        (env : Env) (reqBody : value) :
  let safe := sanitizeMessages numberToString
                (get (bodyOrEmpty reqBody) (u "messages")) in
  let msgs := requestMessages (sanitizeRequest numberToString env reqBody) in
  (forall raw : value,
      (length (sanitizeMessages numberToString raw) <= 50)%nat /\
      Forall (fun t => content t <> [] /\ (length (content t) <= 4000)%nat)
             (sanitizeMessages numberToString raw))
  /\ (msgs = [] \/ msgs = safe \/ msgs = systemTurn env :: safe)
  /\ (length msgs <= 51)%nat
  /\ Forall (fun t => (length (content t) <= 4000)%nat \/ t = systemTurn env)
            msgs
  /\ length (content (systemTurn env))
     = (length (baseSystemPrompt env) + 424)%nat
  /\ length (content (systemTurn plainEnv)) = 554%nat.
Proof.
  intros safe msgs.
  assert (Hraw : forall raw : value,
    (length (sanitizeMessages numberToString raw) <= 50)%nat /\
    Forall (fun t => content t <> [] /\ (length (content t) <= 4000)%nat)
           (sanitizeMessages numberToString raw)).
  { intros raw; split;
      [apply sanitizeMessages_length | apply sanitizeMessages_bounds]. }
  assert (Hshape : msgs = [] \/ msgs = safe \/ msgs = systemTurn env :: safe).
  { unfold msgs; rewrite sanitizeRequest_messages; fold safe.
    destruct safe as [|t l] eqn:E; [now left|].
    unfold finalMessages; destruct (hasSystem (t :: l)); auto. }
  destruct (Hraw (get (bodyOrEmpty reqBody) (u "messages"))) as [Hlen Hall].
  fold safe in Hlen, Hall.
  assert (Hsafe : Forall (fun t => (length (content t) <= 4000)%nat
                                   \/ t = systemTurn env) safe).
  { eapply Forall_impl; [|exact Hall]; simpl; intros t [_ H]; now left. }
  clearbody safe msgs.
  split; [exact Hraw|]; split; [exact Hshape|]; split; [|split; [|split]].
  - destruct Hshape as [-> | [-> | ->]]; simpl; lia.
  - destruct Hshape as [-> | [-> | ->]]; auto.
  - unfold systemTurn, defaultSystemPrompt; cbn [content].
    rewrite !length_app.
    change (length suggestionInstructions) with 422%nat; simpl; lia.
  - vm_compute; reflexivity.
Qed.

(** C3. When no surviving turn has role system, the composed messages are
    a system turn -- the base prompt, a blank line and the formatting
    instruction -- followed by the surviving turns; when a surviving turn
    has role system nothing is injected and the composed messages are the
    surviving turns, which are the turns of the kept entries in the order
    of the request. *)
Theorem system_turn_is_prepended_when_missing
        (numberToString : spec_float -> jsstring) (env : Env) (raw : value) :
  let safe := sanitizeMessages numberToString raw in
  ((forall t, In t safe -> role t <> u "system") ->
   finalMessages env safe
   = {| role := u "system";
        content := baseSystemPrompt env ++ [LF; LF] ++ suggestionInstructions |}
     :: safe)
  /\ ((exists t, In t safe /\ role t = u "system") ->
      finalMessages env safe = safe)
  /\ (forall items, raw = VArray items ->
        safe = flat_map (survivors (sanitizeEntry numberToString))
                        (sliceLast 50 items))
  /\ (safe <> [] ->
      forall reqBody, get (bodyOrEmpty reqBody) (u "messages") = raw ->
        requestMessages (sanitizeRequest numberToString env reqBody)
        = finalMessages env safe).
Proof.
  intros safe; repeat split.
  - intros H; apply hasSystem_false in H.
    unfold finalMessages; now rewrite H.
  - intros H; apply hasSystem_true in H.
    unfold finalMessages; now rewrite H.
  - intros items ->; apply sanitizeMessages_flat_map.
  - intros Hne reqBody Hraw.
    rewrite sanitizeRequest_messages, Hraw; fold safe.
    destruct safe; [congruence | reflexivity].
Qed.

Lemma system_turn_is_prepended_when_missing_witness :
  finalMessages plainEnv
    (sanitizeMessages (fun _ => u "0") (VArray [userEntry (u "hi")]))
  = [ {| role := u "system";
         content := DEFAULT_BASE_PROMPT ++ [LF; LF] ++ suggestionInstructions |};
      {| role := u "user"; content := u "hi" |} ]
  /\ finalMessages plainEnv
       (sanitizeMessages (fun _ => u "0")
          (VArray [userEntry (u "hi");
                   entry (VString (u "system")) (VString (u "Be brief."))]))
     = [ {| role := u "user"; content := u "hi" |};
         {| role := u "system"; content := u "Be brief." |} ]
  /\ requestMessages
       (sanitizeRequest (fun _ => u "0") plainEnv
          (bodyWith (VArray [entry (VString (u "system"))
                                   (VString (u "Be brief."))])))
     = [ {| role := u "system"; content := u "Be brief." |} ].
Proof.
  split; [|split].
  - apply (proj1 (system_turn_is_prepended_when_missing
                    (fun _ => u "0") plainEnv (VArray [userEntry (u "hi")]))).
    intros t [<-|[]]; discriminate.
  - apply (proj1 (proj2 (system_turn_is_prepended_when_missing
                    (fun _ => u "0") plainEnv
                    (VArray [userEntry (u "hi");
                             entry (VString (u "system"))
                                   (VString (u "Be brief."))])))).
    exists {| role := u "system"; content := u "Be brief." |}.
    split; [right; left|]; reflexivity.
  - apply (proj2 (proj2 (proj2 (system_turn_is_prepended_when_missing
                    (fun _ => u "0") plainEnv
                    (VArray [entry (VString (u "system"))
                                   (VString (u "Be brief."))]))))).
    + discriminate.
    + reflexivity.
Defined.

(** C4. The sanitizer rejects, with status 400, exactly when no entry
    survives -- as for the empty list and for a single user entry whose
    content is blank -- and for no other reason: whenever an entry
    survives the request is forwarded, whatever the other fields hold. *)
Theorem rejected_exactly_when_nothing_survives
        (numberToString : spec_float -> jsstring) (env : Env) (reqBody : value) :
  let safe := sanitizeMessages numberToString
                (get (bodyOrEmpty reqBody) (u "messages")) in
  (sanitizeRequest numberToString env reqBody = Reject 400 MSG_INVALID
   <-> safe = [])
  /\ (forall code msg,
         sanitizeRequest numberToString env reqBody = Reject code msg ->
         safe = [] /\ code = 400 /\ msg = MSG_INVALID)
  /\ (safe <> [] ->
      exists p, sanitizeRequest numberToString env reqBody = Forward p)
  /\ sanitizeRequest numberToString env (bodyWith (VArray []))
     = Reject 400 MSG_INVALID
  /\ sanitizeRequest numberToString env
       (bodyWith (VArray [userEntry (u "   ")]))
     = Reject 400 MSG_INVALID
  /\ (forall k key, OPENROUTER_API_KEY env = Some (k :: key) ->
        chatRequest numberToString env reqBody
        = sanitizeRequest numberToString env reqBody).
Proof.
  intros safe.
  assert (Hkey : forall k key, OPENROUTER_API_KEY env = Some (k :: key) ->
                   chatRequest numberToString env reqBody
                   = sanitizeRequest numberToString env reqBody).
  { intros k key H; unfold chatRequest; now rewrite H. }
  unfold Server.sanitizeRequest in *; fold safe; fold safe in Hkey.
  destruct safe as [|t l].
  - repeat split; try reflexivity; try congruence; try now intros [= <- <-].
    exact Hkey.
  - repeat split; try reflexivity; try discriminate; eauto.
Qed.

Lemma rejected_exactly_when_nothing_survives_witness :
  sanitizeRequest (fun _ => u "NaN") plainEnv (bodyWith (VString (u "hello")))
  = Reject 400 MSG_INVALID
  /\ exists p,
       sanitizeRequest (fun _ => u "NaN") plainEnv lenientBody = Forward p.
Proof.
  split.
  - apply (proj1 (rejected_exactly_when_nothing_survives
                    (fun _ => u "NaN") plainEnv
                    (bodyWith (VString (u "hello"))))).
    reflexivity.
  - apply (proj1 (proj2 (proj2 (rejected_exactly_when_nothing_survives
                    (fun _ => u "NaN") plainEnv lenientBody)))).
    discriminate.
Defined.

(** What the lenient request is forwarded as. *)
Example lenient_request_is_normalized :
  sanitizeRequest (fun _ => u "NaN") plainEnv lenientBody
  = Forward {| model := u "openai/gpt-4o-mini";
               messages := [systemTurn plainEnv;
                            {| role := u "user"; content := u "true" |}];
               temperature := None; top_p := None; max_tokens := None |}.
Proof. vm_compute; reflexivity. Qed.

(** C6. The sanitizer works entry by entry on the last 50 entries of the
    list.  An entry that is no record -- a primitive, [null], or an array,
    which has no content -- is skipped.  A kept entry has its
    role if that is one of user, assistant and system, and role user
    otherwise; its content is the content of the entry -- a string as it
    is, a number, a boolean or another non-null value through [String] --
    trimmed and cut to its first 4000 code units.  An entry is dropped when
    its content is [null] or [undefined], when [String] throws on it, and
    when the trimmed text is empty. *)
Theorem entries_are_normalized_one_by_one
        (numberToString : spec_float -> jsstring) :
  (forall items,
      sanitizeMessages numberToString (VArray items)
      = flat_map (survivors (sanitizeEntry numberToString))
                 (sliceLast 50 items))
  /\ (forall m, isObjectLike m = false -> sanitizeEntry numberToString m = None)
  /\ (forall items, sanitizeEntry numberToString (VArray items) = None)
  /\ (forall m t,
         sanitizeEntry numberToString m = Some t <->
         isObjectLike m = true /\
         exists text,
           Coerced (ToString numberToString) (get m (u "content")) text /\
           trim text <> [] /\
           t = {| role := coercedRole (get m (u "role"));
                  content := firstn 4000 (trim text) |})
  /\ (forall r,
         (allowedRoles r = true -> VString (coercedRole r) = r) /\
         (allowedRoles r = false -> coercedRole r = u "user"))
  /\ (forall x, Coerced (ToString numberToString) (VNumber x) (numberToString x))
  /\ Coerced (ToString numberToString) (VBool true) (u "true")
  /\ Coerced (ToString numberToString) (VBool false) (u "false")
  /\ (forall m,
         get m (u "content") = VUndefined \/ get m (u "content") = VNull ->
         sanitizeEntry numberToString m = None)
  /\ (forall m,
         ToString numberToString (get m (u "content")) = None ->
         sanitizeEntry numberToString m = None)
  /\ (forall m text,
         Coerced (ToString numberToString) (get m (u "content")) text ->
         trim text = [] ->
         sanitizeEntry numberToString m = None).
Proof.
  split; [apply sanitizeMessages_flat_map|].
  split.
  { intros m H; unfold Server.sanitizeEntry; now rewrite H. }
  split; [reflexivity|].
  split; [apply sanitizeEntry_some|].
  split.
  { intros r; unfold allowedRoles, coercedRole.
    destruct r; try (split; [discriminate | reflexivity]).
    split; intros ->; reflexivity. }
  split; [intros x; reflexivity|].
  split; [reflexivity|].
  split; [reflexivity|].
  assert (Hnone : forall m,
    (forall text, Coerced (ToString numberToString) (get m (u "content")) text ->
                  trim text = []) ->
    sanitizeEntry numberToString m = None).
  { intros m H.
    destruct (sanitizeEntry numberToString m) as [t|] eqn:E; [|reflexivity].
    apply sanitizeEntry_some in E as [_ [text [Hc [Hne _]]]].
    now apply H in Hc. }
  split; [|split].
  - intros m H; apply Hnone; intros text Hc.
    destruct H as [H|H]; rewrite H in Hc; contradiction.
  - intros m H; apply Hnone; intros text Hc.
    unfold Coerced in Hc.
    destruct (get m (u "content")); try contradiction; try congruence.
    simpl in H; discriminate.
  - intros m text Hc Hblank; apply Hnone; intros text' Hc'.
    replace text' with text; [exact Hblank|].
    unfold Coerced in *.
    destruct (get m (u "content")); try contradiction; congruence.
Qed.

Lemma entries_are_normalized_one_by_one_witness :
  sanitizeEntry (fun _ => u "42") (VString (u "hello")) = None
  /\ sanitizeEntry (fun _ => u "42")
       (entry (VString (u "admin")) (VNumber (S754_zero false)))
     = Some {| role := u "user"; content := u "42" |}
  /\ VString (coercedRole (VString (u "assistant"))) = VString (u "assistant")
  /\ coercedRole (VString (u "admin")) = u "user"
  /\ sanitizeEntry (fun _ => u "42") (entry (VString (u "user")) VNull) = None
  /\ sanitizeEntry (fun _ => u "42") shadowedContent = None
  /\ sanitizeEntry (fun _ => u "42") (userEntry (u "   ")) = None.
Proof.
  pose proof (entries_are_normalized_one_by_one (fun _ => u "42"))
    as [_ [H1 [_ [H2 [H3 [_ [_ [_ [H4 [H5 H6]]]]]]]]]].
  split; [apply H1; reflexivity|].
  split.
  { apply H2; split; [reflexivity|].
    exists (u "42"); repeat split; discriminate. }
  split; [apply (proj1 (H3 (VString (u "assistant")))); reflexivity|].
  split; [apply (proj2 (H3 (VString (u "admin")))); reflexivity|].
  split; [apply H4; right; reflexivity|].
  split; [apply H5; reflexivity|].
  apply (H6 _ (u "   ")); reflexivity.
Defined.

(** ** Clamping of the numeric options *)

Module ClampFacts.

Import Server.

Lemma SFcompare_antisym (x y : spec_float) (c : comparison) :
  SFcompare x y = Some c -> SFcompare y x = Some (CompOpp c).
Proof.
  destruct x as [sx|sx| |sx mx ex], y as [sy|sy| |sy my ey]; simpl;
    try discriminate; intros [= <-];
    try (destruct sx); try (destruct sy); try reflexivity;
    rewrite (Z.compare_antisym ex ey); destruct (ex ?= ey); simpl;
    try reflexivity;
    rewrite (Pos.compare_cont_antisym mx my Eq); reflexivity.
Qed.

Lemma SFcompare_defined (x y : spec_float) :
  isNaN x = false -> isNaN y = false -> exists c, SFcompare x y = Some c.
Proof.
  destruct x, y; simpl; try discriminate; eauto.
Qed.

(** On numbers, not below is at least. *)
Lemma not_ltb_leb (x y : spec_float) :
  isNaN x = false -> isNaN y = false -> SFltb x y = false -> SFleb y x = true.
Proof.
  intros Hx Hy; unfold SFltb, SFleb.
  destruct (SFcompare_defined x y Hx Hy) as [c Hc].
  rewrite Hc, (SFcompare_antisym _ _ _ Hc).
  destruct c; simpl; congruence.
Qed.

Lemma leb_not_ltb (x y : spec_float) : SFleb x y = true -> SFltb y x = false.
Proof.
  unfold SFltb, SFleb.
  destruct (SFcompare x y) as [c|] eqn:Hc; [|discriminate].
  rewrite (SFcompare_antisym _ _ _ Hc); destruct c; simpl; congruence.
Qed.

Lemma SFleb_refl (x : spec_float) : isNaN x = false -> SFleb x x = true.
Proof.
  intros Hx; unfold SFleb.
  destruct (SFcompare_defined x x Hx Hx) as [c Hc].
  pose proof (SFcompare_antisym _ _ _ Hc) as Hc'.
  rewrite Hc in *; destruct c; simpl in *; congruence.
Qed.

(** [clampNumber] clamps, for bounds in order between which no number is
    both below the lower and above the upper. *)
Lemma clampNumber_clamps (lo hi : spec_float) (v : value) :
  isNaN lo = false -> isNaN hi = false -> SFleb lo hi = true ->
  (forall x, SFltb hi x = true -> SFltb x lo = false) ->
  Clamped lo hi v (clampNumber v lo hi).
Proof.
  intros Hlo Hhi Hle Hsep.
  destruct v as [| | |x| | |]; simpl; try reflexivity.
  destruct (isNaN x) eqn:Hx; [reflexivity|].
  destruct (SFltb x lo) eqn:E1; [|destruct (SFltb hi x) eqn:E2].
  - exists lo; repeat split; auto using SFleb_refl.
    + intros H; apply Hsep in H; congruence.
    + intros [H _]; apply leb_not_ltb in H; congruence.
  - exists hi; repeat split; auto using SFleb_refl; try discriminate.
    intros [_ H]; apply leb_not_ltb in H; congruence.
  - exists x; repeat split; auto using not_ltb_leb; discriminate.
Qed.

(** No double is above 1 and below 0, nor above 4096 and below 1. *)
Lemma unit_bounds_apart (x : spec_float) :
  SFltb num1 x = true -> SFltb x num0 = false.
Proof.
  destruct x as [s|s| |s m e]; try destruct s; simpl; try reflexivity;
    discriminate.
Qed.

Lemma SFltb_positive_exponents (m1 m2 : positive) (e1 e2 : Z) :
  SFltb (S754_finite false m1 e1) (S754_finite false m2 e2) = true ->
  e1 <= e2.
Proof.
  unfold SFltb, SFcompare.
  destruct (Z.compare_spec e1 e2); try discriminate; lia.
Qed.

Lemma token_bounds_apart (x : spec_float) :
  SFltb num4096 x = true -> SFltb x num1 = false.
Proof.
  destruct x as [[|]|[|]| |[|] m e]; try reflexivity; try discriminate.
  intros H; apply SFltb_positive_exponents in H.
  destruct (SFltb (S754_finite false m e) num1) eqn:E; [|reflexivity].
  apply SFltb_positive_exponents in E; lia.
Qed.

End ClampFacts.

Import ClampFacts.

(** *** Claims about the numeric options *)

(** C7. [temperature] and [top_p] are clamped into [0, 1] and
    [max_tokens] into [1, 4096], each from its own field alone: a number
    below the range gives the lower bound, one above gives the upper
    bound, one within is passed unchanged; a value that is no number, and
    NaN, makes the option absent.  None of this rejects the request. *)
Theorem numeric_options_are_clamped
        (numberToString : spec_float -> jsstring) (env : Env) (reqBody : value) :
  (forall v, Clamped num0 num1 v (clampNumber v num0 num1))
  /\ (forall v, Clamped num1 num4096 v (clampNumber v num1 num4096))
  /\ (sanitizeMessages numberToString
        (get (bodyOrEmpty reqBody) (u "messages")) <> [] ->
      exists p,
        sanitizeRequest numberToString env reqBody = Forward p /\
        Clamped num0 num1
                (get (bodyOrEmpty reqBody) (u "temperature")) (temperature p) /\
        Clamped num0 num1
                (get (bodyOrEmpty reqBody) (u "top_p")) (top_p p) /\
        Clamped num1 num4096
                (get (bodyOrEmpty reqBody) (u "max_tokens")) (max_tokens p)).
Proof.
  assert (H01 : forall v, Clamped num0 num1 v (clampNumber v num0 num1)).
  { intros v; apply clampNumber_clamps; try reflexivity.
    apply unit_bounds_apart. }
  assert (H14 : forall v, Clamped num1 num4096 v (clampNumber v num1 num4096)).
  { intros v; apply clampNumber_clamps; try reflexivity.
    apply token_bounds_apart. }
  split; [exact H01|]; split; [exact H14|].
  intros Hne; unfold Server.sanitizeRequest.
  destruct (sanitizeMessages numberToString
              (get (bodyOrEmpty reqBody) (u "messages"))); [congruence|].
  eexists; split; [reflexivity|]; cbn [temperature top_p max_tokens]; auto.
Qed.

Lemma numeric_options_are_clamped_witness :
  exists p,
    sanitizeRequest (fun _ => u "0") plainEnv optionsBody = Forward p /\
    Clamped num0 num1 (VNumber num2) (temperature p) /\
    Clamped num0 num1 (VNumber numMinus1) (top_p p) /\
    Clamped num1 num4096 (VString (u "many")) (max_tokens p).
Proof.
  apply (proj2 (proj2 (numeric_options_are_clamped
                         (fun _ => u "0") plainEnv optionsBody))).
  discriminate.
Defined.

Example options_of_the_sample_request :
  exists p,
    sanitizeRequest (fun _ => u "0") plainEnv optionsBody = Forward p /\
    temperature p = Some num1 /\ top_p p = Some num0 /\ max_tokens p = None.
Proof. eexists; split; [reflexivity|]; repeat split. Qed.

(** ** The provider error classifier *)

(** C2. The classifier returns one pair for every failure.  With no status
    -- no response, or the falsy status 0 that stands for none -- it gives
    504 and the timeout message when the failure is a timeout, and 502 and
    the unreachable message otherwise.  With a status, the first matching
    row decides: 401 or 403 give 500 and the not-authorized message; 429
    gives 429 and the too-many-requests message; 500 and above give 502
    and the provider-issue message; any other status is passed on with the
    raw message when that is text, and with a fixed text when it is not.
    The raw message is the provider's [error] when that is truthy, else
    the failure's own message when that is truthy, else a fixed text. *)
Theorem classifier_follows_the_table (err : Failure) :
  let r := buildClientErrorFromOpenRouter err in
  (noStatus err = true -> isTimeout err = true ->
   r = {| statusCode := 504; errorMessage := MSG_TIMEOUT |})
  /\ (noStatus err = true -> isTimeout err = false ->
      r = {| statusCode := 502; errorMessage := MSG_UNREACHABLE |})
  /\ (forall rsp, response err = Some rsp -> status rsp <> 0 ->
        (status rsp = 401 \/ status rsp = 403 ->
         r = {| statusCode := 500; errorMessage := MSG_UNAUTHORIZED |})
        /\ (status rsp = 429 ->
            r = {| statusCode := 429; errorMessage := MSG_RATE_LIMITED |})
        /\ (500 <= status rsp ->
            r = {| statusCode := 502; errorMessage := MSG_PROVIDER_ISSUE |})
        /\ (status rsp <> 401 -> status rsp <> 403 -> status rsp <> 429 ->
            status rsp < 500 ->
            statusCode r = status rsp /\
            errorMessage r = safeMessage (rawMessage err) /\
            (forall s, rawMessage err = VString s -> errorMessage r = s) /\
            ((forall s, rawMessage err <> VString s) ->
             errorMessage r = u "Request failed") /\
            (forall s, get (data rsp) (u "error") = VString s -> s <> [] ->
                       errorMessage r = s)))
  /\ (noStatus err = true <->
      response err = None \/ exists rsp, response err = Some rsp /\ status rsp = 0).
Proof.
  intros r; subst r; unfold buildClientErrorFromOpenRouter, noStatus.
  destruct (response err) as [rsp|] eqn:Hrsp.
  - split; [|split; [|split; [|split]]].
    + intros -> ->; reflexivity.
    + intros -> ->; reflexivity.
    + intros rsp' [= <-] Hs.
      apply Z.eqb_neq in Hs; rewrite Hs.
      split; [|split; [|split]].
      * intros [H|H]; rewrite H; reflexivity.
      * intros H; rewrite H; reflexivity.
      * intros H.
        destruct ((status rsp =? 401) || (status rsp =? 403)) eqn:E1.
        { apply orb_true_iff in E1; rewrite !Z.eqb_eq in E1; lia. }
        destruct (status rsp =? 429) eqn:E2; [apply Z.eqb_eq in E2; lia|].
        apply Z.leb_le in H; now rewrite H.
      * intros H1 H2 H3 H4.
        apply Z.eqb_neq in H1, H2, H3; apply Z.leb_gt in H4.
        rewrite H1, H2, H3, H4; cbn [orb statusCode errorMessage].
        split; [reflexivity|]; split; [reflexivity|].
        split; [|split].
        { intros s ->; reflexivity. }
        { intros H; destruct (rawMessage err) eqn:E; try reflexivity.
          now destruct (H s). }
        { intros s Hd Hne; unfold rawMessage, orElse; rewrite Hrsp, Hd.
          destruct s; [congruence | reflexivity]. }
    + intros H; right; exists rsp; split; [reflexivity | now apply Z.eqb_eq].
    + intros [H|[rsp' [[= <-] H]]]; [discriminate | now apply Z.eqb_eq].
  - split; [|split; [|split; [|split]]].
    + intros _ ->; reflexivity.
    + intros _ ->; reflexivity.
    + intros rsp; discriminate.
    + intros _; now left.
    + reflexivity.
Qed.

Lemma classifier_follows_the_table_witness :
  buildClientErrorFromOpenRouter timedOut
  = {| statusCode := 504; errorMessage := MSG_TIMEOUT |}
  /\ (statusCode (buildClientErrorFromOpenRouter notFound) = 404 /\
      errorMessage (buildClientErrorFromOpenRouter notFound)
      = safeMessage (rawMessage notFound) /\
      (forall s, rawMessage notFound = VString s ->
                 errorMessage (buildClientErrorFromOpenRouter notFound) = s) /\
      ((forall s, rawMessage notFound <> VString s) ->
       errorMessage (buildClientErrorFromOpenRouter notFound)
       = u "Request failed") /\
      (forall s, get (VObject [(u "error", VString (u "No such model"))])
                     (u "error") = VString s ->
                 s <> [] ->
                 errorMessage (buildClientErrorFromOpenRouter notFound) = s))
  /\ errorMessage (buildClientErrorFromOpenRouter teapot) = u "Request failed".
Proof.
  split; [|split].
  - apply (proj1 (classifier_follows_the_table timedOut)); reflexivity.
  - apply (proj1 (proj2 (proj2 (classifier_follows_the_table notFound)))
             {| status := 404;
                data := VObject [(u "error", VString (u "No such model"))] |});
      try reflexivity; simpl; lia.
  - destruct (proj1 (proj2 (proj2 (classifier_follows_the_table teapot)))
                {| status := 418;
                   data := VObject [(u "error",
                                     VObject [(u "message",
                                               VString (u "tea"))])] |}
                eq_refl) as [_ [_ [_ H]]]; [simpl; lia|].
    destruct H as [_ [_ [_ [H _]]]]; try (simpl; lia).
    apply H; intros s; discriminate.
Defined.

Example classifier_on_samples :
  buildClientErrorFromOpenRouter notFound
  = {| statusCode := 404; errorMessage := u "No such model" |}
  /\ buildClientErrorFromOpenRouter teapot
     = {| statusCode := 418; errorMessage := u "Request failed" |}
  /\ buildClientErrorFromOpenRouter
       {| response := Some {| status := 200; data := VString (u "<html>") |};
          code := VUndefined; message := VUndefined |}
     = {| statusCode := 200; errorMessage := u "Unknown error" |}
  /\ buildClientErrorFromOpenRouter
       {| response := Some {| status := 503; data := VNull |};
          code := VString (u "ECONNABORTED"); message := VUndefined |}
     = {| statusCode := 502; errorMessage := MSG_PROVIDER_ISSUE |}.
Proof. repeat split. Qed.

(** * More of the code *)

(** ** The extractor: bound, provenance and contiguous lists *)

Module ExtractorMore.

Section WithCaseMapping.

Variable toLowerCase : jsstring -> jsstring.

Lemma scan_length (lines : list jsstring) (suggestions : list jsstring) :
  (length suggestions < 5)%nat ->
  (length (scan toLowerCase lines suggestions) <= 5)%nat.
Proof.
  revert suggestions; induction lines as [|raw lines IH]; intros sugg H;
    simpl; [lia|].
  rewrite loopBody_eq.
  destruct (trim raw) as [|c l]; [now apply IH|].
  destruct (itemText (c :: l)) as [text|].
  - destruct (5 <=? length (sugg ++ [trim text]))%nat eqn:E.
    + rewrite length_app; simpl; lia.
    + apply IH; now apply Nat.leb_gt in E.
  - destruct (0 <? length sugg)%nat; [lia | now apply IH].
Qed.

(** The loop collects the items of an initial segment of the lines, in
    order and without leaving one out. *)
Lemma scan_consumed (lines : list jsstring) (suggestions : list jsstring) :
  exists consumed rest,
    lines = consumed ++ rest /\
    scan toLowerCase lines suggestions
    = suggestions ++ flat_map itemOf consumed.
Proof.
  revert suggestions; induction lines as [|raw lines IH]; intros sugg.
  - exists [], []; simpl; now rewrite app_nil_r.
  - simpl; rewrite loopBody_eq.
    assert (Hskip : itemOf raw = [] ->
              exists consumed rest,
                raw :: lines = consumed ++ rest /\
                scan toLowerCase lines sugg
                = sugg ++ flat_map itemOf consumed).
    { intros Hi; destruct (IH sugg) as [consumed [rest [-> Hs]]].
      exists (raw :: consumed), rest; simpl; now rewrite Hi. }
    destruct (trim raw) as [|c l] eqn:Hl.
    { apply Hskip; unfold itemOf; now rewrite Hl. }
    destruct (itemText (c :: l)) as [text|] eqn:Ht.
    + assert (Hi : itemOf raw = [trim text])
        by (unfold itemOf; now rewrite Hl, Ht).
      destruct (5 <=? length (sugg ++ [trim text]))%nat.
      * exists [raw], lines; simpl; now rewrite Hi, app_nil_r.
      * destruct (IH (sugg ++ [trim text])) as [consumed [rest [-> Hs]]].
        exists (raw :: consumed), rest; simpl.
        now rewrite Hi, Hs, <- app_assoc.
    + destruct (0 <? length sugg)%nat.
      * exists [], (raw :: lines); simpl; now rewrite app_nil_r.
      * apply Hskip; unfold itemOf; now rewrite Hl, Ht.
Qed.

Lemma extract_length (content : value) :
  (length (extractFollowUpSuggestions toLowerCase content) <= 5)%nat.
Proof.
  unfold extractFollowUpSuggestions, extractFromText.
  destruct content as [| | | |[|c s]| |]; cbn [length]; try lia.
  destruct (afterHeader toLowerCase (splitLines (c :: s)));
    cbn [length]; [|lia].
  apply scan_length; cbn [length]; lia.
Qed.

Lemma extract_clean (content : value) :
  Forall Clean (extractFollowUpSuggestions toLowerCase content).
Proof.
  unfold extractFollowUpSuggestions, extractFromText.
  destruct content as [| | | |[|c s]| |]; try constructor.
  destruct (afterHeader toLowerCase (splitLines (c :: s)));
    [apply scan_clean|]; constructor.
Qed.

End WithCaseMapping.

Lemma noLeadingWS_head (a b : jsstring) :
  a <> [] -> noLeadingWS a -> noLeadingWS (a ++ b).
Proof. destruct a; [congruence | auto]. Qed.

Lemma noTrailingWS_tail (a b : jsstring) :
  b <> [] -> noTrailingWS b -> noTrailingWS (a ++ b).
Proof.
  unfold noTrailingWS; intros Hne H; rewrite rev_app_distr.
  apply noLeadingWS_head; [|exact H].
  intros E; apply (f_equal (@rev Z)) in E; rewrite rev_involutive in E.
  simpl in E; congruence.
Qed.

(** A list line is its own trim and gives its text. *)
Lemma ListLine_item (line t : jsstring) :
  ListLine line t -> trim line = line /\ itemText line = Some t.
Proof.
  intros [marker [ws [Hm [Hne [Hws [[Ht [Hlead Htrail]] [Hdot ->]]]]]]].
  destruct (bareMarker_trimmed marker Hm) as [Hmne [Hml _]].
  split.
  - apply trim_fixed.
    + now apply noLeadingWS_head.
    + rewrite app_assoc; now apply noTrailingWS_tail.
  - destruct Hm as [->|[->|[ds [Hds [Hall ->]]]]].
    + now apply (itemText_bullet 45 ws t).
    + now apply (itemText_bullet 42 ws t).
    + destruct ds as [|d ds]; [congruence|].
      simpl in Hall; apply andb_true_iff in Hall as [Hd Hall].
      assert (Hb : isBulletMarker d = false).
      { unfold isDigit in Hd; apply andb_true_iff in Hd as [H1 H2].
        apply Z.leb_le in H1, H2; unfold isBulletMarker.
        apply orb_false_iff; split; apply Z.eqb_neq; lia. }
      unfold itemText, bulletMatch, numberedMatch, greedyPlus.
      cbn [app]; rewrite Hb, Hd; cbn [truthyGroup].
      rewrite <- app_assoc.
      rewrite (greedyStar_first _ _ ds ([46] ++ ws ++ t) [d] t Hall).
      * destruct t; [congruence | reflexivity].
      * reflexivity.
      * cbn [app]; rewrite Z.eqb_refl.
        now apply spacesThenCapture_complete.
Qed.

Section WithCaseMappingLists.

Variable toLowerCase : jsstring -> jsstring.

Lemma scan_list_lines (lines items rest acc : list jsstring) :
  Forall2 ListLine lines items ->
  (length acc < 5)%nat ->
  scan toLowerCase (lines ++ rest) acc
  = if (5 <=? length acc + length items)%nat
    then firstn 5 (acc ++ items)
    else scan toLowerCase rest (acc ++ items).
Proof.
  intros H; revert acc; induction H as [|line t lines items Hl _ IH];
    intros acc Hacc.
  - cbn [app length]; rewrite Nat.add_0_r, app_nil_r.
    apply Nat.leb_gt in Hacc; now rewrite Hacc.
  - destruct (ListLine_item _ _ Hl) as [Htrim Hitem].
    destruct Hl as [marker [ws [Hm [_ [_ [[Ht [Hlead Htrail]] [_ Hline]]]]]]].
    assert (Hline' : line <> []).
    { destruct (bareMarker_trimmed marker Hm) as [Hmne _].
      rewrite Hline; destruct marker; [congruence | discriminate]. }
    cbn [app scan]; rewrite loopBody_eq, Htrim, Hitem.
    rewrite (trim_fixed t Hlead Htrail).
    destruct line as [|c l]; [congruence|].
    rewrite length_app; cbn [length].
    destruct (5 <=? length acc + 1)%nat eqn:E.
    + apply Nat.leb_le in E.
      assert (E5 : (5 <=? length acc + S (length items))%nat = true)
        by (apply Nat.leb_le; lia).
      rewrite E5.
      change (t :: items) with ([t] ++ items); rewrite app_assoc.
      rewrite firstn_app, firstn_all2
        by (rewrite length_app; cbn [length]; lia).
      replace (5 - length (acc ++ [t]))%nat with 0%nat
        by (rewrite length_app; cbn [length]; lia).
      now rewrite app_nil_r.
    + apply Nat.leb_gt in E.
      rewrite IH by (rewrite length_app; cbn [length]; lia).
      rewrite length_app; cbn [length].
      replace (length acc + 1 + length items)%nat
        with (length acc + S (length items))%nat by lia.
      change (t :: items) with ([t] ++ items); now rewrite !app_assoc.
Qed.

End WithCaseMappingLists.

Lemma splitLines_join (lines : list jsstring) :
  lines <> [] -> Forall noLF lines -> splitLines (joinLines lines) = lines.
Proof.
  assert (Hone : forall l rest, noLF l ->
            splitLines (l ++ LF :: rest) = l :: splitLines rest).
  { induction l as [|c l IH]; intros rest Hl; [reflexivity|].
    cbn [app splitLines].
    destruct (Z.eqb_spec c LF) as [->|_]; [exfalso; apply Hl; now left|].
    rewrite IH; [reflexivity | intros H; apply Hl; now right]. }
  assert (Hlast : forall l, noLF l -> splitLines l = [l]).
  { induction l as [|c l IH]; intros Hl; [reflexivity|].
    cbn [splitLines].
    destruct (Z.eqb_spec c LF) as [->|_]; [exfalso; apply Hl; now left|].
    rewrite IH; [reflexivity | intros H; apply Hl; now right]. }
  induction lines as [|l lines IH]; intros Hne Hall; [congruence|].
  inversion Hall as [|? ? Hl Hrest]; subst.
  destruct lines as [|l' lines]; [now apply Hlast|].
  change (joinLines (l :: l' :: lines))
    with (l ++ LF :: joinLines (l' :: lines)).
  rewrite Hone by exact Hl.
  now rewrite IH.
Qed.

End ExtractorMore.

Import ExtractorMore.

(** X1. The extractor never returns more than five suggestions, whatever
    it is given. *)
Theorem at_most_five_suggestions (toLowerCase : jsstring -> jsstring)
        (content : value) :
  (length (extractFollowUpSuggestions toLowerCase content) <= 5)%nat.
Proof. apply extract_length. Qed.

(** X2. What the extractor returns is read off the lines that follow the
    first header line, and off nothing else: it is the list of the items of
    a run of lines that starts right after the first header, each item
    trimmed, in the order of the lines and with none of the run left
    out. *)
Theorem suggestions_come_from_lines_after_the_header
        (toLowerCase : jsstring -> jsstring) (content : value) :
  exists run : list jsstring,
    extractFollowUpSuggestions toLowerCase content = flat_map itemOf run /\
    (run = [] \/
     exists text before header rest,
       content = VString text /\
       splitLines text = before ++ header :: run ++ rest /\
       Forall (fun l => ~ headerText (toLowerCase (trim l))) before /\
       headerText (toLowerCase (trim header))).
Proof.
  unfold extractFollowUpSuggestions, extractFromText.
  destruct content as [| | | |[|c s]| |];
    try (exists []; split; [reflexivity | now left]).
  destruct (afterHeader toLowerCase (splitLines (c :: s))) as [after|] eqn:E;
    [|exists []; split; [reflexivity | now left]].
  apply afterHeader_some in E as [before [header [E [Hh Hb]]]].
  destruct (scan_consumed toLowerCase after []) as [run [rest [-> Hs]]].
  exists run; split; [exact Hs|].
  right; exists (c :: s), before, header, rest.
  repeat split; auto.
  - eapply Forall_impl; [|exact Hb]; simpl; intros l Hl Hc.
    apply isHeader_spec in Hc; congruence.
  - now apply isHeader_spec.
Qed.

(** X3. A reply that is a header line followed by a contiguous list --
    bullet or numbered lines whose texts are trimmed, non-empty and on one
    line -- gives the texts of the list, the first five of them when there
    are more; what follows the list, from the first non-blank line that is
    no item, changes nothing. *)
Theorem contiguous_list_is_extracted
        (toLowerCase : jsstring -> jsstring)
        (header : jsstring) (lines items tail : list jsstring) :
  headerText (toLowerCase (trim header)) ->
  Forall2 ListLine lines items ->
  items <> [] ->
  ListEnds tail ->
  Forall noLF (header :: lines ++ tail) ->
  extractFollowUpSuggestions toLowerCase
    (VString (joinLines (header :: lines ++ tail)))
  = firstn 5 items.
Proof.
  intros Hh Hl Hne Hend Hlf.
  destruct lines as [|line lines]; [inversion Hl; congruence|].
  unfold extractFollowUpSuggestions, extractFromText.
  destruct (joinLines (header :: (line :: lines) ++ tail)) as [|c s] eqn:E.
  { destruct header; discriminate. }
  rewrite <- E, splitLines_join by (auto; discriminate).
  cbn [afterHeader].
  apply isHeader_spec in Hh; rewrite Hh.
  rewrite (scan_list_lines toLowerCase _ items tail [] Hl) by (simpl; lia).
  cbn [length app Nat.add].
  destruct (5 <=? length items)%nat eqn:E5; [reflexivity|].
  apply Nat.leb_gt in E5.
  rewrite firstn_all2 by lia.
  destruct tail as [|stop more]; [reflexivity|].
  destruct Hend as [Hs Hi].
  cbn [scan]; rewrite loopBody_stop; auto.
Qed.

Lemma contiguous_list_is_extracted_witness :
  extractFollowUpSuggestions asciiToLowerCase
    (VString (joinLines (u "Follow-up suggestions:"
                         :: [u "1. What is X?"; u "* How does Y work?"]
                         ++ [u "Thanks for asking."; u "- Not this one"])))
  = firstn 5 [u "What is X?"; u "How does Y work?"].
Proof.
  apply (contiguous_list_is_extracted asciiToLowerCase).
  - left; reflexivity.
  - constructor; [|constructor; [|constructor]].
    + exists (u "1."), (u " "); repeat split; try discriminate.
      right; right; exists (u "1"); repeat split; discriminate.
    + exists (u "*"), (u " "); repeat split; try discriminate.
      right; left; reflexivity.
  - discriminate.
  - split; [discriminate | reflexivity].
  - repeat constructor; intros H; vm_compute in H;
      repeat (destruct H as [H|H]; [discriminate|]); exact H.
Defined.

(** ** The relay: window, shape of the turns, composition, payload *)

Module RelayMore.

Import Server.

Lemma sliceLast_app {A : Type} (n : nat) (older recent : list A) :
  (n <= length recent)%nat ->
  sliceLast n (older ++ recent) = sliceLast n recent.
Proof.
  intros H; unfold sliceLast.
  rewrite length_app, skipn_app.
  rewrite skipn_all2 by lia.
  cbn [app]; f_equal; lia.
Qed.


Lemma coercedRole_allowed (r : value) : AllowedRole (coercedRole r).
Proof.
  unfold coercedRole, AllowedRole.
  destruct r as [| | | |s| |]; auto.
  destruct (eqb s (u "user")) eqn:E1; [apply eqb_eq in E1; auto|].
  destruct (eqb s (u "assistant")) eqn:E2; [apply eqb_eq in E2; auto|].
  destruct (eqb s (u "system")) eqn:E3; [apply eqb_eq in E3; auto|].
  simpl; auto.
Qed.

Lemma coercedRole_fixed (r : jsstring) :
  AllowedRole r -> coercedRole (VString r) = r.
Proof. intros [H|[H|H]]; subst r; reflexivity. Qed.

Lemma firstn_noLeadingWS (n : nat) (s : jsstring) :
  noLeadingWS s -> noLeadingWS (firstn n s).
Proof. destruct n, s; simpl; auto. Qed.

Lemma hasSystem_final (env : Env) (safe : list ChatTurn) :
  hasSystem (finalMessages env safe) = true.
Proof.
  unfold finalMessages.
  destruct (hasSystem safe) eqn:E; [exact E | reflexivity].
Qed.

Lemma selected_model_shape (model : value) : Clean (selectedModel model).
Proof.
  assert (Hd : Clean (u "openai/gpt-4o-mini"))
    by (repeat split; discriminate).
  unfold selectedModel.
  destruct model as [| | | |s| |]; try exact Hd.
  destruct (trim s) as [|c t] eqn:E; [exact Hd|].
  rewrite <- E; repeat split;
    [congruence | apply trim_noLeading | apply trim_noTrailing].
Qed.

Lemma envOr_nonempty (x : option jsstring) (fallback : jsstring) :
  fallback <> [] -> envOr x fallback <> [].
Proof. destruct x as [[|c s]|]; simpl; auto; discriminate. Qed.

Section WithNumberToString.

Variable numberToString : spec_float -> jsstring.

#[local] Abbreviation sanitizeEntry := (sanitizeEntry numberToString).
#[local] Abbreviation sanitizeMessages := (sanitizeMessages numberToString).
#[local] Abbreviation sanitizeRequest := (sanitizeRequest numberToString).
#[local] Abbreviation chatRequest := (chatRequest numberToString).

(** What a kept turn looks like. *)
Lemma sanitizeEntry_shape (m : value) (t : ChatTurn) :
  sanitizeEntry m = Some t ->
  AllowedRole (role t) /\ noLeadingWS (content t) /\
  ((length (content t) < MAX_CHARS)%nat -> noTrailingWS (content t)).
Proof.
  intros H; apply sanitizeEntry_some in H as [_ [text [_ [_ ->]]]].
  cbn [role content]; split; [apply coercedRole_allowed|]; split.
  - apply firstn_noLeadingWS, trim_noLeading.
  - intros Hlen.
    destruct (Nat.le_gt_cases (length (trim text)) MAX_CHARS) as [Hle|Hgt].
    + rewrite firstn_all2 by exact Hle; apply trim_noTrailing.
    + rewrite length_firstn in Hlen; lia.
Qed.

Lemma sanitizeMessages_shape (raw : value) :
  Forall (fun t => AllowedRole (role t) /\ noLeadingWS (content t) /\
                   ((length (content t) < MAX_CHARS)%nat ->
                    noTrailingWS (content t)))
         (sanitizeMessages raw).
Proof.
  destruct raw; try constructor.
  rewrite sanitizeMessages_flat_map.
  apply Forall_flat_map, Forall_forall; intros m _.
  unfold survivors; destruct (Server.sanitizeEntry numberToString m) as [t|] eqn:E;
    [|constructor].
  constructor; [now apply sanitizeEntry_shape in E | constructor].
Qed.

(** A turn in sanitized shape is kept as it is. *)
Lemma sanitizeEntry_turnValue (t : ChatTurn) :
  AllowedRole (role t) -> content t <> [] ->
  noLeadingWS (content t) -> noTrailingWS (content t) ->
  (length (content t) <= MAX_CHARS)%nat ->
  sanitizeEntry (turnValue t) = Some t.
Proof.
  intros Hr Hne Hl Ht Hlen; apply sanitizeEntry_some.
  split; [reflexivity|].
  exists (content t).
  change (get (turnValue t) (u "content")) with (VString (content t)).
  change (get (turnValue t) (u "role")) with (VString (role t)).
  rewrite (trim_fixed _ Hl Ht), (coercedRole_fixed _ Hr).
  rewrite firstn_all2 by exact Hlen.
  repeat split; auto; now destruct t.
Qed.



End WithNumberToString.

End RelayMore.

Import RelayMore.

(** X4. Only the last 50 entries of the list count: entries before them
    change nothing.  Within the window the sanitizer works piecewise: the
    turns of a list are the turns of its front followed by the turns of
    its back. *)
Theorem only_the_last_fifty_entries_count
        (numberToString : spec_float -> jsstring) :
  (forall older recent : list value,
      (50 <= length recent)%nat ->
      sanitizeMessages numberToString (VArray (older ++ recent))
      = sanitizeMessages numberToString (VArray recent))
  /\
  (forall front back : list value,
      (length (front ++ back) <= 50)%nat ->
      sanitizeMessages numberToString (VArray (front ++ back))
      = sanitizeMessages numberToString (VArray front)
        ++ sanitizeMessages numberToString (VArray back)).
Proof.
  split.
  - intros older recent H.
    rewrite !sanitizeMessages_flat_map; now rewrite sliceLast_app.
  - intros front back H; rewrite length_app in H.
    rewrite !sanitizeMessages_flat_map.
    rewrite !sliceLast_short by (rewrite ?length_app; unfold MAX_MESSAGES; lia).
    apply flat_map_app.
Qed.

Lemma only_the_last_fifty_entries_count_witness :
  sanitizeMessages (fun _ => u "0")
    (VArray ([entry (VString (u "system")) (VString (u "Old rule."))]
             ++ repeat (userEntry (u "hi")) 50))
  = sanitizeMessages (fun _ => u "0") (VArray (repeat (userEntry (u "hi")) 50))
  /\ sanitizeMessages (fun _ => u "0")
       (VArray ([userEntry (u "a"); VNull] ++ [userEntry (u "b")]))
     = sanitizeMessages (fun _ => u "0") (VArray [userEntry (u "a"); VNull])
       ++ sanitizeMessages (fun _ => u "0") (VArray [userEntry (u "b")]).
Proof.
  split.
  - apply (proj1 (only_the_last_fifty_entries_count (fun _ => u "0"))).
    rewrite repeat_length; apply le_n.
  - apply (proj2 (only_the_last_fifty_entries_count (fun _ => u "0"))).
    simpl; lia.
Defined.

(** X5. Every turn the sanitizer returns has one of the three roles and a
    content that starts with a code unit that is no white space; the
    content can only end in white space when it was cut, that is when it
    is 4000 code units long. *)
Theorem sanitized_turns_are_well_shaped
        (numberToString : spec_float -> jsstring) (raw : value) :
  Forall (fun t => AllowedRole (role t) /\ noLeadingWS (content t) /\
                   ((length (content t) < 4000)%nat ->
                    noTrailingWS (content t)))
         (sanitizeMessages numberToString raw).
Proof. apply sanitizeMessages_shape. Qed.

(** X6. Sanitizing is stable: sent back as entries, the turns of a
    sanitized list come out unchanged, provided none of them ends in white
    space (which only a cut content can). *)
Theorem sanitizing_again_changes_nothing
        (numberToString : spec_float -> jsstring) (raw : value) :
  let safe := sanitizeMessages numberToString raw in
  Forall (fun t => noTrailingWS (content t)) safe ->
  sanitizeMessages numberToString (VArray (map turnValue safe)) = safe.
Proof.
  intros safe Htrail.
  pose proof (sanitizeMessages_length numberToString raw) as Hlen.
  pose proof (sanitizeMessages_bounds numberToString raw) as Hb.
  pose proof (sanitizeMessages_shape numberToString raw) as Hs.
  fold safe in Hlen, Hb, Hs; clearbody safe.
  rewrite sanitizeMessages_flat_map.
  rewrite sliceLast_short by now rewrite length_map.
  clear Hlen; induction safe as [|t safe IH]; [reflexivity|].
  inversion Htrail; inversion Hb; inversion Hs; subst.
  cbn [map flat_map]; rewrite IH by assumption.
  unfold survivors at 1.
  rewrite sanitizeEntry_turnValue; [reflexivity| | | | |]; tauto.
Qed.

Lemma sanitizing_again_changes_nothing_witness :
  sanitizeMessages (fun _ => u "0")
    (VArray (map turnValue
               (sanitizeMessages (fun _ => u "0")
                  (VArray [entry (VString (u "admin")) (VString (u "  hi  "));
                           VNull]))))
  = sanitizeMessages (fun _ => u "0")
      (VArray [entry (VString (u "admin")) (VString (u "  hi  ")); VNull]).
Proof.
  apply (sanitizing_again_changes_nothing (fun _ => u "0")
           (VArray [entry (VString (u "admin")) (VString (u "  hi  ")); VNull])).
  repeat constructor.
Defined.

(** X7. The composed messages always hold a system turn, end with the
    surviving turns behind at most one added turn, and composing twice is
    composing once. *)
Theorem composed_messages_have_a_system_turn
        (env : Env) (safe : list ChatTurn) :
  hasSystem (finalMessages env safe) = true
  /\ (exists added, finalMessages env safe = added ++ safe /\
                    (length added <= 1)%nat)
  /\ finalMessages env (finalMessages env safe) = finalMessages env safe.
Proof.
  split; [apply hasSystem_final|]; split.
  - unfold finalMessages; destruct (hasSystem safe).
    + exists []; split; [reflexivity | simpl; lia].
    + eexists [_]; split; [reflexivity | simpl; lia].
  - unfold finalMessages at 1; now rewrite hasSystem_final.
Qed.


(** X9. Whatever is forwarded to the provider is well formed: the key is
    configured, the model is not blank, the messages are at most 51, hold
    a system turn and only the three roles, and each numeric option is
    absent or within its range. *)
Theorem forwarded_payload_is_well_formed
        (numberToString : spec_float -> jsstring) (env : Env)
        (reqBody : value) (p : Payload) :
  chatRequest numberToString env reqBody = Forward p ->
  hasKey env = true
  /\ Clean (model p)
  /\ (1 <= length (messages p) <= 51)%nat
  /\ hasSystem (messages p) = true
  /\ Forall (fun t => AllowedRole (role t)) (messages p)
  /\ AbsentOrWithin num0 num1 (temperature p)
  /\ AbsentOrWithin num0 num1 (top_p p)
  /\ AbsentOrWithin num1 num4096 (max_tokens p).
Proof.
  assert (Hopt : forall lo hi v, Clamped lo hi v (clampNumber v lo hi) ->
                                 AbsentOrWithin lo hi (clampNumber v lo hi)).
  { intros lo hi v H; unfold Clamped in H.
    destruct v; try (rewrite H; exact I).
    destruct (isNaN x); [rewrite H; exact I|].
    destruct H as [r [-> [H _]]]; exact H. }
  unfold chatRequest, hasKey.
  destruct (OPENROUTER_API_KEY env) as [[|k key]|]; try discriminate.
  unfold sanitizeRequest.
  set (raw := get (bodyOrEmpty reqBody) (u "messages")).
  pose proof (sanitizeMessages_length numberToString raw) as Hlen.
  pose proof (sanitizeMessages_shape numberToString raw) as Hs.
  destruct (sanitizeMessages numberToString raw) as [|t safe] eqn:E;
    [discriminate|].
  intros [= <-]; cbn [model messages temperature top_p max_tokens].
  split; [reflexivity|].
  split; [apply selected_model_shape|].
  split; [|split; [apply hasSystem_final|split; [|split; [|split]]]].
  - unfold finalMessages, MAX_MESSAGES in *.
    destruct (hasSystem (t :: safe)); cbn [length] in *; lia.
  - unfold finalMessages; destruct (hasSystem (t :: safe)).
    + eapply Forall_impl; [|exact Hs]; simpl; tauto.
    + constructor; [right; right; reflexivity|].
      eapply Forall_impl; [|exact Hs]; simpl; tauto.
  - apply Hopt, clampNumber_clamps; try reflexivity; apply unit_bounds_apart.
  - apply Hopt, clampNumber_clamps; try reflexivity; apply unit_bounds_apart.
  - apply Hopt, clampNumber_clamps; try reflexivity; apply token_bounds_apart.
Qed.

Lemma forwarded_payload_is_well_formed_witness :
  hasKey plainEnv = true
  /\ Clean (u "openai/gpt-4o-mini")
  /\ (1 <= 2 <= 51)%nat
  /\ hasSystem [systemTurn plainEnv; {| role := u "user"; content := u "hi" |}]
     = true
  /\ Forall (fun t => AllowedRole (role t))
            [systemTurn plainEnv; {| role := u "user"; content := u "hi" |}]
  /\ AbsentOrWithin num0 num1 (Some num1)
  /\ AbsentOrWithin num0 num1 (Some num0)
  /\ AbsentOrWithin num1 num4096 None.
Proof.
  apply (forwarded_payload_is_well_formed (fun _ => u "0") plainEnv optionsBody
           {| model := u "openai/gpt-4o-mini";
              messages := [systemTurn plainEnv;
                           {| role := u "user"; content := u "hi" |}];
              temperature := Some num1;
              top_p := Some num0;
              max_tokens := None |}).
  reflexivity.
Defined.

(** X10. The handler refuses a request before the provider call in two
    cases only: with status 500 when the API key is not configured,
    whatever the request holds, and with status 400 when the key is
    configured and no entry survives. *)
Theorem request_is_refused_for_two_reasons_only
        (numberToString : spec_float -> jsstring) (env : Env)
        (reqBody : value) (code : Z) (msg : jsstring) :
  chatRequest numberToString env reqBody = Reject code msg <->
  (hasKey env = false /\ code = 500 /\
   msg = u "Server not configured: missing OPENROUTER_API_KEY")
  \/
  (hasKey env = true /\ code = 400 /\ msg = MSG_INVALID /\
   sanitizeMessages numberToString
     (get (bodyOrEmpty reqBody) (u "messages")) = []).
Proof.
  unfold chatRequest, hasKey, sanitizeRequest.
  destruct (OPENROUTER_API_KEY env) as [[|k key]|].
  - split; [intros [= <- <-]; now left|].
    intros [[_ [-> ->]]|[[=] _]]; reflexivity.
  - destruct (sanitizeMessages numberToString
                (get (bodyOrEmpty reqBody) (u "messages"))) as [|t l].
    + split; [intros [= <- <-]; now right|].
      intros [[[=] _]|[_ [-> [-> _]]]]; reflexivity.
    + split; [discriminate|].
      intros [[[=] _]|[_ [_ [_ [=]]]]].
  - split; [intros [= <- <-]; now left|].
    intros [[_ [-> ->]]|[[=] _]]; reflexivity.
Qed.

(** X11. Clamping is stable and never gives NaN: for bounds in order, a
    clamped number is a number, and clamping it again gives it back. *)
Theorem clamping_again_changes_nothing
        (v : value) (lo hi r : spec_float) :
  isNaN lo = false -> isNaN hi = false -> SFleb lo hi = true ->
  clampNumber v lo hi = Some r ->
  isNaN r = false /\ clampNumber (VNumber r) lo hi = Some r.
Proof.
  intros Hlo Hhi Hle; unfold clampNumber.
  destruct v as [| | |x| | |]; try discriminate.
  destruct (isNaN x) eqn:Hx; [discriminate|].
  pose proof (leb_not_ltb _ _ Hle) as Hhl.
  pose proof (leb_not_ltb _ _ (SFleb_refl lo Hlo)) as Hll.
  pose proof (leb_not_ltb _ _ (SFleb_refl hi Hhi)) as Hhh.
  destruct (SFltb x lo) eqn:E1; [|destruct (SFltb hi x) eqn:E2];
    intros [= <-].
  - now rewrite Hlo, Hll, Hhl.
  - now rewrite Hhi, Hhl, Hhh.
  - now rewrite Hx, E1, E2.
Qed.

Lemma clamping_again_changes_nothing_witness :
  isNaN num1 = false /\ clampNumber (VNumber num1) num0 num1 = Some num1.
Proof.
  apply (clamping_again_changes_nothing (VNumber num2) num0 num1 num1);
    reflexivity.
Defined.

(** X12. The status the classifier answers with is 500, 502, 504 or 429,
    or else the provider's own status, and then one below 500 that is not
    0, 401, 403 or 429: the client never sees a 401 or a 403, and no 5xx
    other than 500, 502 and 504. *)
Theorem classified_status_is_masked (err : Failure) :
  let c := statusCode (buildClientErrorFromOpenRouter err) in
  (c = 500 \/ c = 502 \/ c = 504 \/ c = 429)
  \/
  (exists rsp, response err = Some rsp /\ status rsp = c /\
               c < 500 /\ c <> 0 /\ c <> 401 /\ c <> 403 /\ c <> 429).
Proof.
  unfold buildClientErrorFromOpenRouter.
  destruct (response err) as [rsp|];
    [|destruct (isTimeout err); cbn [statusCode]; auto].
  destruct (Z.eqb_spec (status rsp) 0);
    [destruct (isTimeout err); cbn [statusCode]; auto|].
  destruct (Z.eqb_spec (status rsp) 401); [cbn; auto|].
  destruct (Z.eqb_spec (status rsp) 403); [cbn; auto|].
  destruct (Z.eqb_spec (status rsp) 429); [cbn; auto|].
  destruct (Z.leb_spec 500 (status rsp)); cbn [orb statusCode]; auto.
  right; exists rsp; repeat split; auto.
Qed.

(** The raw message is truthy, so its text is not empty. *)
Lemma safeMessage_nonempty (err : Failure) : safeMessage (rawMessage err) <> [].
Proof.
  unfold rawMessage, orElse.
  destruct (truthy _) eqn:E1; [|discriminate].
  destruct (truthy (match response err with
                    | Some r => get (data r) (u "error")
                    | None => VUndefined end)) eqn:E2.
  - destruct (match response err with
              | Some r => get (data r) (u "error")
              | None => VUndefined end); simpl in *; try discriminate.
    destruct s; [discriminate E2 | discriminate].
  - destruct (message err); simpl in *; try discriminate.
    destruct s; [discriminate E1 | discriminate].
Qed.


(** X13. The message the classifier answers with is never empty; and with
    any of the statuses 500, 502, 504 and 429 it is one of the five texts
    the classifier writes itself: nothing of the provider's payload is
    passed on with them. *)
Theorem classified_message_is_never_empty (err : Failure) :
  let r := buildClientErrorFromOpenRouter err in
  errorMessage r <> []
  /\ (statusCode r = 500 \/ statusCode r = 502 \/ statusCode r = 504 \/
      statusCode r = 429 ->
      FixedMessage (errorMessage r)).
Proof.
  pose proof (safeMessage_nonempty err) as Hraw.
  unfold buildClientErrorFromOpenRouter, FixedMessage.
  destruct (response err) as [rsp|].
  2:{ destruct (isTimeout err); cbn [statusCode errorMessage];
        split; auto; discriminate. }
  destruct (Z.eqb_spec (status rsp) 0).
  { destruct (isTimeout err); cbn [statusCode errorMessage];
      split; auto; discriminate. }
  destruct (Z.eqb_spec (status rsp) 401);
    [cbn; split; [discriminate | auto 6]|].
  destruct (Z.eqb_spec (status rsp) 403);
    [cbn; split; [discriminate | auto 6]|].
  destruct (Z.eqb_spec (status rsp) 429);
    [cbn; split; [discriminate | auto 6]|].
  destruct (Z.leb_spec 500 (status rsp)); cbn [orb statusCode errorMessage].
  - split; [discriminate | auto 6].
  - split; [exact Hraw | lia].
Qed.

(** ** The handler and the client's reading of its responses *)

Import Handler.

(** X14. The success response always carries a content and a role that
    are neither [null] nor [undefined].  What the client puts in the chat
    from it is never falsy: a provider content that is a non-empty string
    comes through unchanged, and one that is missing, [null] or the empty
    string shows as [No response] -- never as the empty default of the
    relay. *)
Theorem success_response_has_content_and_role (data : value) :
  let b := successBody data in
  nullish (get b (u "content")) = false
  /\ nullish (get b (u "role")) = false
  /\ truthy (Client.aiContent b) = true
  /\ (forall text,
         get (firstMessage data) (u "content") = VString text ->
         Client.aiContent b
         = VString (match text with [] => u "No response" | _ :: _ => text end))
  /\ (nullish (get (firstMessage data) (u "content")) = true ->
      Client.aiContent b = VString (u "No response")).
Proof.
  intros b.
  assert (Hc : get b (u "content")
               = orDefault (get (firstMessage data) (u "content")) (VString []))
    by reflexivity.
  assert (Hr : get b (u "role")
               = orDefault (get (firstMessage data) (u "role"))
                           (VString (u "assistant")))
    by reflexivity.
  clearbody b; unfold Client.aiContent; rewrite Hc, Hr.
  generalize (get (firstMessage data) (u "content")) as c.
  generalize (get (firstMessage data) (u "role")) as r.
  intros r c.
  split; [now destruct c|]; split; [now destruct r|].
  assert (Heq : orElse (orDefault c (VString [])) (VString (u "No response"))
                = orElse c (VString (u "No response")))
    by (destruct c; reflexivity).
  rewrite Heq; split; [|split].
  - unfold orElse; destruct (truthy c) eqn:E; [exact E | reflexivity].
  - intros text ->; now destruct text.
  - now destruct c.
Qed.

Lemma success_response_has_content_and_role_witness :
  Client.aiContent
    (successBody
       (VObject [(u "choices",
                  VArray [VObject [(u "message",
                                    entry (VString (u "assistant"))
                                          (VString (u "Hello.")))]])]))
  = VString (u "Hello.")
  /\ Client.aiContent (successBody (VObject [(u "choices", VArray [])]))
     = VString (u "No response").
Proof.
  split.
  - apply (proj1 (proj2 (proj2 (proj2
             (success_response_has_content_and_role
                (VObject [(u "choices",
                           VArray [VObject [(u "message",
                                             entry (VString (u "assistant"))
                                                   (VString (u "Hello.")))]])])))))
             (u "Hello.")).
    reflexivity.
  - apply (proj2 (proj2 (proj2 (proj2
             (success_response_has_content_and_role
                (VObject [(u "choices", VArray [])])))))).
    reflexivity.
Defined.


(** ** The CORS origin check *)

Import Cors.

Lemma endsWith_app (suffix front : jsstring) :
  endsWith suffix (front ++ suffix) = true.
Proof.
  unfold endsWith; rewrite rev_app_distr.
  apply startsWith_app; now exists (rev front).
Qed.

Lemma includes_In (x : jsstring) (l : list jsstring) :
  includes x l = true <-> In x l.
Proof.
  unfold includes; rewrite existsb_exists; split.
  - intros [y [Hy E]]; apply eqb_eq in E; now subst.
  - intros H; exists x; split; [exact H | now apply eqb_eq].
Qed.

Lemma allowedOrigins_eq (env : OriginEnv) :
  allowedOrigins env
  = [ LOCAL_DEV; u "http://localhost:3000";
      u "https://alpha-tawny-two.vercel.app";
      u "https://alpha-pink-seven.vercel.app"; origin env ].
Proof.
  unfold allowedOrigins; cbn [filter].
  change (nonEmpty LOCAL_DEV) with true.
  change (nonEmpty (u "http://localhost:3000")) with true.
  change (nonEmpty (u "https://alpha-tawny-two.vercel.app")) with true.
  change (nonEmpty (u "https://alpha-pink-seven.vercel.app")) with true.
  assert (H : origin env <> []).
  { unfold origin; apply envOr_nonempty.
    destruct (VERCEL_URL env) as [[|c s]|]; discriminate. }
  destruct (origin env); [congruence | reflexivity].
Qed.

(** X16. The origin check lets through every request without an origin,
    the four fixed origins and the configured one under every environment,
    and every origin whose host name ends in [.vercel.app]; it refuses an
    origin only when that is not empty, not listed, and either no URL or
    one whose host name does not end in [.vercel.app]. *)
Theorem origin_check_allows_listed_and_vercel_origins
        (hostname : jsstring -> option jsstring) (env : OriginEnv) :
  originAllowed hostname env None = true
  /\ Forall (fun o => originAllowed hostname env (Some o) = true)
            [ LOCAL_DEV; u "http://localhost:3000";
              u "https://alpha-tawny-two.vercel.app";
              u "https://alpha-pink-seven.vercel.app"; origin env ]
  /\ (forall o sub,
         hostname o = Some (sub ++ u ".vercel.app") ->
         originAllowed hostname env (Some o) = true)
  /\ (forall o,
         originAllowed hostname env (Some o) = false ->
         o <> [] /\ ~ In o (allowedOrigins env) /\
         (hostname o = None \/
          exists h, hostname o = Some h /\
                    (h = [] \/ endsWith (u ".vercel.app") h = false))).
Proof.
  assert (Hin : forall o, In o (allowedOrigins env) ->
                          originAllowed hostname env (Some o) = true).
  { intros o H; unfold originAllowed.
    destruct o; [reflexivity|].
    apply includes_In in H; now rewrite H. }
  split; [reflexivity|]; split; [|split].
  - rewrite <- allowedOrigins_eq; apply Forall_forall; exact Hin.
  - intros o sub H; unfold originAllowed.
    destruct o as [|c o]; [reflexivity|].
    destruct (includes (c :: o) (allowedOrigins env)); [reflexivity|].
    rewrite H, endsWith_app, andb_true_r.
    destruct sub; reflexivity.
  - intros o H; unfold originAllowed in H.
    destruct o as [|c o]; [discriminate|].
    destruct (includes (c :: o) (allowedOrigins env)) eqn:E; [discriminate|].
    split; [discriminate|]; split.
    + intros Hi; apply includes_In in Hi; congruence.
    + destruct (hostname (c :: o)) as [h|]; [|now left].
      right; exists h; split; [reflexivity|].
      apply andb_false_iff in H as [H|H]; [left | now right].
      destruct h; [reflexivity | discriminate].
Qed.

Lemma origin_check_allows_listed_and_vercel_origins_witness :
  originAllowed (fun _ => Some (u "anything.vercel.app"))
                {| ORIGIN := None; VERCEL_URL := None |}
                (Some (u "https://anything.vercel.app")) = true
  /\ (u "https://example.com" <> [] /\
      ~ In (u "https://example.com")
           (allowedOrigins {| ORIGIN := None; VERCEL_URL := None |}) /\
      ((fun _ : jsstring => Some (u "example.com")) (u "https://example.com")
       = None \/
       exists h,
         (fun _ : jsstring => Some (u "example.com")) (u "https://example.com")
         = Some h /\
         (h = [] \/ endsWith (u ".vercel.app") h = false))).
Proof.
  split.
  - apply (proj1 (proj2 (proj2 (origin_check_allows_listed_and_vercel_origins
                                  (fun _ => Some (u "anything.vercel.app"))
                                  {| ORIGIN := None; VERCEL_URL := None |})))
             (u "https://anything.vercel.app") (u "anything")).
    reflexivity.
  - apply (proj2 (proj2 (proj2 (origin_check_allows_listed_and_vercel_origins
                                  (fun _ => Some (u "example.com"))
                                  {| ORIGIN := None; VERCEL_URL := None |})))
             (u "https://example.com")).
    reflexivity.
Defined.

(** ** The client: last reply, suggestions, sending and regenerating *)

Module ClientMore.

Import Client.

Lemma findFromEnd_some (p : value -> bool) (l : list value) (m : value) :
  findFromEnd p l = Some m <->
  exists skipped rest,
    l = skipped ++ m :: rest /\ p m = true /\
    Forall (fun x => p x = false) skipped.
Proof.
  induction l as [|x l IH]; simpl.
  - split; [discriminate | intros [[|? ?] [? [[=] _]]]].
  - destruct (p x) eqn:E.
    + split.
      * intros [= <-]; exists [], l; auto.
      * intros [[|y skipped] [rest [Hl [Hm Hs]]]].
        -- now injection Hl as <- _.
        -- injection Hl as <- _; inversion Hs; congruence.
    + rewrite IH; split.
      * intros [skipped [rest [-> [Hm Hs]]]].
        exists (x :: skipped), rest; auto.
      * intros [[|y skipped] [rest [Hl [Hm Hs]]]].
        -- injection Hl as <- _; congruence.
        -- injection Hl as <- ->; inversion Hs; subst.
           exists skipped, rest; auto.
Qed.

Lemma findFromEnd_none (p : value -> bool) (l : list value) :
  findFromEnd p l = None <-> Forall (fun x => p x = false) l.
Proof.
  induction l as [|x l IH]; simpl; [split; auto|].
  destruct (p x) eqn:E.
  - split; [discriminate | intros H; inversion H; congruence].
  - rewrite IH; split; [now constructor | intros H; now inversion H].
Qed.

Lemma lastAssistantMessage_some (messages : list value) (m : value) :
  lastAssistantMessage messages = Some m <->
  exists before after,
    messages = before ++ m :: after /\ isAssistantText m = true /\
    Forall (fun x => isAssistantText x = false) after.
Proof.
  unfold lastAssistantMessage; rewrite findFromEnd_some; split.
  - intros [skipped [rest [Hl [Hm Hs]]]].
    exists (rev rest), (rev skipped); repeat split; auto.
    + apply (f_equal (@rev value)) in Hl; rewrite rev_involutive in Hl.
      rewrite Hl, rev_app_distr; simpl; now rewrite <- app_assoc.
    + now apply Forall_rev.
  - intros [before [after [-> [Hm Ha]]]].
    exists (rev after), (rev before); repeat split; auto.
    + rewrite rev_app_distr; simpl; now rewrite <- app_assoc.
    + now apply Forall_rev.
Qed.

Lemma lastAssistantMessage_none (messages : list value) :
  lastAssistantMessage messages = None <->
  Forall (fun x => isAssistantText x = false) messages.
Proof.
  unfold lastAssistantMessage; rewrite findFromEnd_none; split; intros H.
  - rewrite <- (rev_involutive messages); now apply Forall_rev.
  - now apply Forall_rev.
Qed.

Lemma lastAssistantMessage_later (messages later : list value) :
  Forall (fun x => isAssistantText x = false) later ->
  lastAssistantMessage (messages ++ later) = lastAssistantMessage messages.
Proof.
  intros H.
  destruct (lastAssistantMessage messages) as [m|] eqn:E.
  - apply lastAssistantMessage_some in E as [before [after [-> [Hm Ha]]]].
    apply lastAssistantMessage_some.
    exists before, (after ++ later); repeat split; auto.
    + now rewrite <- app_assoc.
    + apply Forall_app; auto.
  - apply lastAssistantMessage_none in E.
    apply lastAssistantMessage_none, Forall_app; auto.
Qed.

Lemma lastIndexOf_map_some (f : value -> value) (p : value -> bool)
      (l : list value) (i : nat) :
  lastIndexOf p (map f l) = Some i ->
  exists a x b,
    l = a ++ x :: b /\ length a = i /\ p (f x) = true /\
    Forall (fun y => p (f y) = false) b.
Proof.
  revert i; induction l as [|y l IH]; intros i; simpl; [discriminate|].
  destruct (lastIndexOf p (map f l)) as [j|] eqn:E.
  - intros [= <-]; destruct (IH j eq_refl) as [a [x [b [-> [Ha [Hx Hb]]]]]].
    exists (y :: a), x, b; simpl; auto.
  - destruct (p (f y)) eqn:Hy; [|discriminate].
    intros [= <-]; exists [], y, l; repeat split; auto.
    clear IH Hy; induction l as [|z l IHl]; [constructor|].
    simpl in E; destruct (lastIndexOf p (map f l)); [discriminate|].
    destruct (p (f z)) eqn:Hz; [discriminate|].
    constructor; auto.
Qed.

Lemma lastIndexOf_map_none (f : value -> value) (p : value -> bool)
      (l : list value) :
  lastIndexOf p (map f l) = None <-> Forall (fun y => p (f y) = false) l.
Proof.
  induction l as [|y l IH]; simpl; [split; auto|].
  destruct (lastIndexOf p (map f l)) as [j|].
  - split; [discriminate|].
    intros H; inversion H; subst.
    assert (@None nat = None) by reflexivity.
    destruct IH as [_ IH]; now specialize (IH H3).
  - destruct (p (f y)) eqn:Hy.
    + split; [discriminate | intros H; inversion H; congruence].
    + split; [intros _; constructor; auto; now apply IH|reflexivity].
Qed.

Lemma lastIndexOf_map_app (f : value -> value) (p : value -> bool)
      (a b : list value) (x : value) :
  p (f x) = true -> Forall (fun y => p (f y) = false) b ->
  lastIndexOf p (map f (a ++ x :: b)) = Some (length a).
Proof.
  intros Hx Hb; induction a as [|y a IH]; simpl.
  - apply lastIndexOf_map_none in Hb; now rewrite Hb, Hx.
  - now rewrite IH.
Qed.

Lemma trim_trim (s : jsstring) : trim (trim s) = trim s.
Proof. apply trim_fixed; [apply trim_noLeading | apply trim_noTrailing]. Qed.

End ClientMore.

Import Client ClientMore.

(** X17. [lastAssistantMessage] is the last message of the history that
    has role assistant and a string content, and there is none exactly
    when no message is such. *)
Theorem last_assistant_message_is_the_last_one (history : list value) :
  (forall m,
      lastAssistantMessage history = Some m <->
      exists before after,
        history = before ++ m :: after /\ isAssistantText m = true /\
        Forall (fun x => isAssistantText x = false) after)
  /\ (lastAssistantMessage history = None <->
      Forall (fun x => isAssistantText x = false) history).
Proof.
  split; [apply lastAssistantMessage_some | apply lastAssistantMessage_none].
Qed.

(** X18. The suggestion chips are those of the last assistant reply:
    messages added after it that are no assistant reply -- the user's next
    message, say -- leave them as they are; and they are always at most
    five non-empty, trimmed strings. *)
Theorem chips_follow_the_last_assistant_reply
        (toLowerCase : jsstring -> jsstring) (history : list value) :
  (forall m, isAssistantText m = true ->
             followUpSuggestions toLowerCase (history ++ [m])
             = extractFollowUpSuggestions toLowerCase (get m (u "content")))
  /\ (forall later,
         Forall (fun x => isAssistantText x = false) later ->
         followUpSuggestions toLowerCase (history ++ later)
         = followUpSuggestions toLowerCase history)
  /\ (length (followUpSuggestions toLowerCase history) <= 5)%nat
  /\ Forall Clean (followUpSuggestions toLowerCase history).
Proof.
  unfold followUpSuggestions; split; [|split; [|split]].
  - intros m Hm.
    replace (lastAssistantMessage (history ++ [m])) with (Some m);
      [reflexivity|].
    symmetry; apply lastAssistantMessage_some.
    exists history, []; auto.
  - intros later H; now rewrite lastAssistantMessage_later.
  - destruct (lastAssistantMessage history);
      [apply extract_length | simpl; lia].
  - destruct (lastAssistantMessage history);
      [apply extract_clean | constructor].
Qed.

Lemma chips_follow_the_last_assistant_reply_witness :
  followUpSuggestions asciiToLowerCase
    ([userEntry (u "hi")]
     ++ [entry (VString (u "assistant")) (VString sampleReply)])
  = extractFollowUpSuggestions asciiToLowerCase (VString sampleReply)
  /\ followUpSuggestions asciiToLowerCase
       ([entry (VString (u "assistant")) (VString sampleReply)]
        ++ [userEntry (u "What is X?"); VNull])
     = followUpSuggestions asciiToLowerCase
         [entry (VString (u "assistant")) (VString sampleReply)].
Proof.
  split.
  - apply (proj1 (chips_follow_the_last_assistant_reply asciiToLowerCase
                    [userEntry (u "hi")])
             (entry (VString (u "assistant")) (VString sampleReply))).
    reflexivity.
  - apply (proj1 (proj2 (chips_follow_the_last_assistant_reply asciiToLowerCase
                    [entry (VString (u "assistant")) (VString sampleReply)]))).
    repeat constructor.
Defined.

(** X19. Every suggestion chip can be sent: clicking it puts its text in
    the input, unchanged by trimming, and with that input and no request
    pending the send button is enabled. *)
Theorem every_chip_can_be_sent
        (toLowerCase : jsstring -> jsstring) (history : list value)
        (s input : jsstring) :
  In s (followUpSuggestions toLowerCase history) ->
  handleSuggestionClick s input = s
  /\ trim s = s
  /\ canSend (handleSuggestionClick s input) false = true.
Proof.
  intros H.
  assert (Hc : Clean s).
  { assert (Hall : Forall Clean (followUpSuggestions toLowerCase history)).
    { unfold followUpSuggestions.
      destruct (lastAssistantMessage history);
        [apply extract_clean | constructor]. }
    rewrite Forall_forall in Hall; now apply Hall. }
  destruct Hc as [Hne [Hl Ht]].
  assert (Hclick : handleSuggestionClick s input = s)
    by (destruct s; [congruence | reflexivity]).
  rewrite Hclick; repeat split; [now apply trim_fixed|].
  unfold canSend; rewrite (trim_fixed s Hl Ht).
  destruct s; [congruence | reflexivity].
Qed.

Lemma every_chip_can_be_sent_witness :
  handleSuggestionClick (u "What is X?") (u "draft") = u "What is X?"
  /\ trim (u "What is X?") = u "What is X?"
  /\ canSend (handleSuggestionClick (u "What is X?") (u "draft")) false = true.
Proof.
  apply (every_chip_can_be_sent asciiToLowerCase
           [entry (VString (u "assistant")) (VString sampleReply)]).
  vm_compute; left; reflexivity.
Defined.



(** X21. [regenerateLast] throws exactly when a message of the history is
    [null] or [undefined]; it leaves everything as it is exactly when, none
    being so, no message has role user; otherwise it cuts the history right
    before its last user message, dropping that message and everything
    after it, and puts the content of that message in the input. *)
Theorem regenerate_cuts_before_the_last_user_message (history : list value) :
  (regenerateLast history = Throws <->
   exists m, In m history /\ nullish m = true)
  /\ (regenerateLast history = Unchanged <->
      (forall m, In m history ->
                 nullish m = false /\ isUser (get m (u "role")) = false))
  /\ (forall base input,
         regenerateLast history = Restored base input ->
         exists lastUser dropped,
           history = base ++ lastUser :: dropped /\
           isUser (get lastUser (u "role")) = true /\
           Forall (fun m => isUser (get m (u "role")) = false) dropped /\
           input = get lastUser (u "content")).
Proof.
  unfold regenerateLast.
  destruct (existsb nullish history) eqn:En.
  - split; [|split].
    + split; [intros _; now apply existsb_exists in En | reflexivity].
    + split; [discriminate|].
      intros H; apply existsb_exists in En as [m [Hin Hm]].
      destruct (H m Hin); congruence.
    + discriminate.
  - assert (Hn : forall m, In m history -> nullish m = false).
    { intros m Hin; destruct (nullish m) eqn:E; [|reflexivity].
      assert (existsb nullish history = true)
        by (apply existsb_exists; eauto).
      congruence. }
    destruct (lastIndexOf isUser (map (fun m => get m (u "role")) history))
      as [i|] eqn:E.
    + apply lastIndexOf_map_some in E as [a [x [b [-> [<- [Hx Hb]]]]]].
      split; [|split].
      * split; [discriminate|].
        intros [m [Hin Hm]]; rewrite (Hn m Hin) in Hm; discriminate.
      * split; [discriminate|].
        intros H; destruct (H x) as [_ H']; [|congruence].
        apply in_elt.
      * intros base input [= <- <-].
        exists x, b.
        rewrite firstn_app, firstn_all, Nat.sub_diag, app_nil_r.
        rewrite nth_middle; auto.
    + apply lastIndexOf_map_none in E.
      split; [|split].
      * split; [discriminate|].
        intros [m [Hin Hm]]; rewrite (Hn m Hin) in Hm; discriminate.
      * split; [|reflexivity].
        intros _ m Hin; split; [now apply Hn|].
        rewrite Forall_forall in E; now apply E.
      * discriminate.
Qed.

Lemma regenerate_cuts_before_the_last_user_message_witness :
  exists lastUser dropped,
    [userEntry (u "one"); entry (VString (u "assistant")) (VString (u "1"));
     userEntry (u "two"); entry (VString (u "assistant")) (VString (u "2"))]
    = [userEntry (u "one"); entry (VString (u "assistant")) (VString (u "1"))]
      ++ lastUser :: dropped /\
    isUser (get lastUser (u "role")) = true /\
    Forall (fun m => isUser (get m (u "role")) = false) dropped /\
    VString (u "two") = get lastUser (u "content").
Proof.
  apply (proj2 (proj2 (regenerate_cuts_before_the_last_user_message
           [userEntry (u "one");
            entry (VString (u "assistant")) (VString (u "1"));
            userEntry (u "two");
            entry (VString (u "assistant")) (VString (u "2"))]))).
  reflexivity.
Defined.

(** X22. Regenerating undoes a send: from a history without [null] and
    [undefined] to which [sendMessage] added the user's message, followed
    by any replies of other roles, [regenerateLast] gives back the history
    as it was before the send, with the trimmed text of the message in the
    input; and sending that input posts the same messages as sending the
    original one. *)
Theorem regenerate_undoes_a_send
        (history replies : list value) (input : jsstring)
        (now later : spec_float) (temperature : value) :
  existsb nullish (history ++ replies) = false ->
  Forall (fun m => isUser (get m (u "role")) = false) replies ->
  regenerateLast (history ++ userMsg input now :: replies)
  = Restored history (VString (trim input))
  /\ sendMessage history (trim input) false temperature later
     = sendMessage history input false temperature later.
Proof.
  intros Hn Hr; split.
  - unfold regenerateLast.
    assert (En : existsb nullish (history ++ userMsg input now :: replies)
                 = false).
    { rewrite existsb_app in *; simpl.
      apply orb_false_iff in Hn as [-> ->]; reflexivity. }
    rewrite En, lastIndexOf_map_app by auto.
    rewrite firstn_app, firstn_all, Nat.sub_diag, app_nil_r.
    now rewrite nth_middle.
  - unfold sendMessage, canSend, userMsg; now rewrite trim_trim.
Qed.

Lemma regenerate_undoes_a_send_witness :
  regenerateLast
    ([userEntry (u "one")] ++ userMsg (u " two ") num1
     :: [entry (VString (u "assistant")) (VString (u "2"))])
  = Restored [userEntry (u "one")] (VString (trim (u " two ")))
  /\ sendMessage [userEntry (u "one")] (trim (u " two ")) false VUndefined num2
     = sendMessage [userEntry (u "one")] (u " two ") false VUndefined num2.
Proof.
  apply (regenerate_undoes_a_send
           [userEntry (u "one")]
           [entry (VString (u "assistant")) (VString (u "2"))]
           (u " two ") num1 num2 VUndefined).
  - reflexivity.
  - repeat constructor.
Defined.

(** Witnesses of the statements above that read as equivalences or hold
    under a condition on the result. *)

Lemma request_is_refused_for_two_reasons_only_witness :
  chatRequest (fun _ => u "0")
    {| OPENROUTER_API_KEY := None; SYSTEM_PROMPT := None |} optionsBody
  = Reject 500 (u "Server not configured: missing OPENROUTER_API_KEY")
  /\ chatRequest (fun _ => u "0") plainEnv (bodyWith (VArray [VNull]))
     = Reject 400 MSG_INVALID.
Proof.
  split.
  - apply (proj2 (request_is_refused_for_two_reasons_only (fun _ => u "0")
             {| OPENROUTER_API_KEY := None; SYSTEM_PROMPT := None |}
             optionsBody 500
             (u "Server not configured: missing OPENROUTER_API_KEY"))).
    left; repeat split.
  - apply (proj2 (request_is_refused_for_two_reasons_only (fun _ => u "0")
             plainEnv (bodyWith (VArray [VNull])) 400 MSG_INVALID)).
    right; repeat split.
Defined.

Lemma classified_message_is_never_empty_witness :
  FixedMessage (errorMessage (buildClientErrorFromOpenRouter timedOut)).
Proof.
  apply (proj2 (classified_message_is_never_empty timedOut)).
  right; right; left; reflexivity.
Defined.

Lemma last_assistant_message_is_the_last_one_witness :
  lastAssistantMessage
    ([entry (VString (u "assistant")) (VString (u "1"))]
     ++ entry (VString (u "assistant")) (VString (u "2"))
     :: [userEntry (u "three"); entry (VString (u "assistant")) VNull])
  = Some (entry (VString (u "assistant")) (VString (u "2"))).
Proof.
  apply (proj2 (proj1 (last_assistant_message_is_the_last_one _) _)).
  exists [entry (VString (u "assistant")) (VString (u "1"))],
         [userEntry (u "three"); entry (VString (u "assistant")) VNull].
  repeat split; repeat constructor.
Defined.
